(** * cte_helper: the line protocol of the IOWarp CTE helper

    A shallow embedding of [docker/iowarp/cte_helper.cpp]: the hex codec, the
    hand-written JSON field extractor, the response encoder and the command
    dispatcher of [main], followed by the properties of the protocol.

    Conventions.
    - [std::string] is [string]; a [char] is an [ascii]; a [std::vector<char>]
      (and a [(const char*, size_t)] span) is a [list ascii].
    - The arithmetic the source does on characters is done on [Z], on the
      character's code in [0, 256); conversions back to [unsigned char] and
      [char] reduce modulo 256.
    - [size_t] and [chi::u64] quantities are [N].
    - The storage engine is external: it is a record of operations over an
      abstract state, each of which either returns or throws. *)

From Stdlib Require Import Bool List Arith ZArith NArith Lia.
From Stdlib Require Import Strings.Ascii Strings.String Numbers.DecimalString.
Import ListNotations.

Open Scope string_scope.

(** ** Characters *)

Definition dquote : ascii := "034"%char.
Definition backslash : ascii := "\"%char.
Definition newline : ascii := "010"%char.
Definition tab : ascii := "009"%char.
Definition space : ascii := " "%char.
Definition carriage_return : ascii := "013"%char.

(** The code of a character, as an [unsigned char]. *)
Definition code (c : ascii) : Z := Z.of_N (N_of_ascii c).

(** Assignment of an [int] to an [unsigned char]. *)
Definition to_uchar (z : Z) : Z := z mod 256.

(** [static_cast<char>] of an [int]. *)
Definition to_char (z : Z) : ascii := ascii_of_N (Z.to_N (z mod 256)).

(** A one-character string, and a string between double quotes. *)
Definition str1 (c : ascii) : string := String c "".
Definition quoted (s : string) : string := String dquote (s ++ str1 dquote).

(** [s.empty()] *)
Definition empty (s : string) : bool :=
  match s with EmptyString => true | String _ _ => false end.

(** ** Hex codec *)

Module Hex.

(** [static const char hex[]] *)
Definition hex : string := "0123456789abcdef".

(** [hex[i]]; the source only indexes with [c >> 4] and [c & 0x0f]. *)
Definition hex_at (i : Z) : ascii :=
  match get (Z.to_nat i) hex with
  | Some c => c
  | None => zero
  end.

(** [to_hex(data, len)]: the span [(data, len)] is the list [data]. *)
Fixpoint to_hex (data : list ascii) : string :=
  match data with
  | [] => ""
  | d :: rest =>
      let c := code d in
      String (hex_at (Z.shiftr c 4))
        (String (hex_at (Z.land c 15)) (to_hex rest))
  end.

(** The value given to [hi] (and to [lo]) for one input character: the three
    ranges of the source, and the initial value [0] when none applies. *)
Definition nibble (h : ascii) : Z :=
  let c := code h in
  if (code "0" <=? c)%Z && (c <=? code "9")%Z
  then to_uchar (c - code "0")
  else if (code "a" <=? c)%Z && (c <=? code "f")%Z
  then to_uchar (c - code "a" + 10)
  else if (code "A" <=? c)%Z && (c <=? code "F")%Z
  then to_uchar (c - code "A" + 10)
  else 0%Z.

(** [from_hex(hex)]: the loop [for (i = 0; i + 1 < hex.size(); i += 2)]
    consumes the characters two by two and stops when fewer than two are
    left. *)
Fixpoint from_hex (hex : string) : list ascii :=
  match hex with
  | String h0 (String h1 rest) =>
      to_char (Z.lor (Z.shiftl (nibble h0) 4) (nibble h1)) :: from_hex rest
  | _ => []
  end.

End Hex.

(** ** Minimal JSON field extractor *)

Module Json.

(** [json.find_first_of(chars, pos)] *)
Fixpoint find_first_of (chars : list ascii) (pos : nat) (s : string)
  : option nat :=
  match s, pos with
  | EmptyString, _ => None
  | String c s', O =>
      if existsb (Ascii.eqb c) chars then Some O
      else option_map S (find_first_of chars O s')
  | String _ s', S pos' => option_map S (find_first_of chars pos' s')
  end.

(** [while (pos < json.size() && (json[pos] == ' ' || json[pos] == '\t')) pos++]
    The loop runs at most [json.size()] times, which is the fuel given to it
    by [json_get]. *)
Fixpoint skip_blanks (fuel : nat) (json : string) (pos : nat) : nat :=
  match fuel with
  | O => pos
  | S fuel' =>
      match get pos json with
      | Some c =>
          if Ascii.eqb c space || Ascii.eqb c tab
          then skip_blanks fuel' json (S pos)
          else pos
      | None => pos
      end
  end.

(** [while (!val.empty() && (val.back() == ' ' || val.back() == '\n')) val.pop_back()] *)
Fixpoint trim_back (val : string) : string :=
  match val with
  | EmptyString => EmptyString
  | String c rest =>
      match trim_back rest with
      | EmptyString =>
          if Ascii.eqb c space || Ascii.eqb c newline then EmptyString
          else str1 c
      | kept => String c kept
      end
  end.

(** The text searched for: the key between double quotes, then a colon. *)
Definition search_of (key : string) : string :=
  String dquote (key ++ String dquote ":").

Definition json_get (json key : string) : string :=
  let search := search_of key in
  match index 0 search json with
  | None => ""
  | Some found =>
      let pos := skip_blanks (length json) json (found + length search) in
      if (length json <=? pos)%nat then ""
      else
        match get pos json with
        | Some c =>
            if Ascii.eqb c dquote then
              let pos := S pos in
              match index pos (str1 dquote) json with
              | None => ""
              | Some end_ => substring pos (end_ - pos) json
              end
            else
              let end_ :=
                match find_first_of [","%char; "}"%char; "]"%char] pos json with
                | None => length json
                | Some e => e
                end in
              trim_back (substring pos (end_ - pos) json)
        | None => ""
        end
  end.

End Json.

(** ** Response encoder *)

Module Encoder.

(** The text appended to [out] for one character. *)
Definition escape_char (c : ascii) : string :=
  if Ascii.eqb c dquote then String backslash (str1 dquote)
  else if Ascii.eqb c backslash then String backslash (str1 backslash)
  else if Ascii.eqb c newline then "\n"
  else if Ascii.eqb c tab then "\t"
  else str1 c.

(** [escape_json(s)]: [for (char c : s) out += ...], from an empty [out]. *)
Fixpoint escape_loop (out : string) (s : string) : string :=
  match s with
  | EmptyString => out
  | String c rest => escape_loop (out ++ escape_char c) rest
  end.

Definition escape_json (s : string) : string := escape_loop "" s.

(** The line written by [respond_ok(extra)]. *)
Definition ok_line (extra : string) : string :=
  if empty extra then "{" ++ quoted "status" ++ ":" ++ quoted "ok" ++ "}"
  else "{" ++ quoted "status" ++ ":" ++ quoted "ok" ++ "," ++ extra ++ "}".

(** The line written by [respond_error(msg)]. *)
Definition error_line (msg : string) : string :=
  "{" ++ quoted "status" ++ ":" ++ quoted "error" ++ ","
      ++ quoted "message" ++ ":" ++ String dquote (escape_json msg)
      ++ str1 dquote ++ "}".

(** [std::to_string] of an unsigned integer. *)
Definition to_string (n : N) : string := NilZero.string_of_uint (N.to_uint n).

(** A JSON array of escaped, quoted names, as the three loops of [main]
    build it (without the brackets). *)
Fixpoint join_names (i : nat) (names : list string) : string :=
  match names with
  | [] => ""
  | name :: rest =>
      (if Nat.ltb 0 i then "," else "") ++ quoted (escape_json name)
        ++ join_names (S i) rest
  end.

End Encoder.

(** ** The storage engine, seen from the helper *)

(** What a [catch] clause of the source can tell apart: an object derived from
    [std::exception], with its [what()], or anything else. *)
Inductive exn : Type :=
| StdException (what : string)
| OtherException.

(** A call either returns or throws. *)
Inductive outcome (A : Type) : Type :=
| Returned (a : A)
| Thrown (e : exn).
Arguments Returned {A} a.
Arguments Thrown {A} e.

(** The calls the helper makes into the engine, with the arguments it passes.
    [CallTag] is the constructor [wrp_cte::core::Tag tag(tag_name)]; the calls
    on a tag carry the name that tag was built from. [CallNewBuffer] is the
    allocation [std::vector<char> buf(size)] of a [get]: a call into the C++
    runtime, not into the engine, and the one other step of a handler that
    may throw ([std::length_error], [std::bad_alloc]), the engine deciding
    its size. *)
Inductive call : Type :=
| CallInit
| CallListTargets
| CallTag (tag_name : string)
| CallPutBlob (tag_name blob_name : string) (data : list ascii)
| CallGetBlobSize (tag_name blob_name : string)
| CallNewBuffer (size : N)
| CallGetBlob (tag_name blob_name : string) (size : N)
| CallGetContainedBlobs (tag_name : string)
| CallTagQuery (pattern : string)
| CallGetTagId (tag_name : string)
| CallDelBlob (tag_name blob_name : string)
| CallDelTag (tag_name : string).

(** The engine: a state, handles, and the operations of
    [wrp_cte::core] that [main] uses. With them comes [NewBuffer], the
    allocation of a buffer of [size] bytes by the runtime, which returns or
    throws as the memory of the process allows: the state stands for all that
    the helper does not hold itself. *)
Record Facade : Type := {
  backend : Type;
  Tag : Type;
  TagId : Type;
  WRP_CTE_CLIENT_INIT : backend -> outcome bool * backend;
  ListTargets : backend -> outcome (list string) * backend;
  NewTag : string -> backend -> outcome Tag * backend;
  PutBlob : Tag -> string -> list ascii -> backend -> outcome unit * backend;
  GetBlobSize : Tag -> string -> backend -> outcome N * backend;
  NewBuffer : N -> backend -> outcome unit * backend;
  GetBlob : Tag -> string -> N -> backend -> outcome (list ascii) * backend;
  GetContainedBlobs : Tag -> backend -> outcome (list string) * backend;
  GetTagId : Tag -> backend -> outcome TagId * backend;
  TagQuery : string -> backend -> outcome (list string) * backend;
  DelBlob : TagId -> string -> backend -> outcome unit * backend;
  DelTag : string -> backend -> outcome unit * backend
}.

(** What an observer of the process sees, in order: a line taken from the
    standard input by [std::getline], a line written (and flushed) to the
    standard output by [respond], a call into the engine, and the exception
    with which the call just made came back, when it threw. *)
Inductive event : Type :=
| EvRead (line : string)
| EvWrite (line : string)
| EvCall (c : call)
| EvThrow (e : exn).

(** How one pass through the body of the [while] loop ends. *)
Inductive flow : Type :=
| Next     (* falls out of the body, or [continue] *)
| Break.   (* [break] *)

(** How the process ends: [return code] from [main], or [std::terminate]
    because an exception left [main]. *)
Inductive termination : Type :=
| Exit (code : Z)
| Terminate.

(** ** Command dispatcher *)

Module Dispatcher.
Import Hex Json Encoder.

Section WithFacade.

Variable F : Facade.

(** Code that may call the engine and write responses: from the engine's
    state to an outcome, the new state and the events, oldest first. *)
Definition M (A : Type) : Type :=
  backend F -> outcome A * backend F * list event.

Definition ret {A} (a : A) : M A := fun st => (Returned a, st, []).

Definition bind {A B} (m : M A) (k : A -> M B) : M B :=
  fun st =>
    match m st with
    | (Returned a, st', tr) =>
        match k a st' with
        | (r, st'', tr') => (r, st'', (tr ++ tr')%list)
        end
    | (Thrown e, st', tr) => (Thrown e, st', tr)
    end.

Notation "x <- m ;; k" := (bind m (fun x => k))
  (at level 61, m at next level, right associativity).
Notation "m ;;; k" := (bind m (fun _ => k))
  (at level 61, right associativity).

(** A call into the engine. *)
Definition invoke {A} (c : call) (op : backend F -> outcome A * backend F)
  : M A :=
  fun st =>
    match op st with
    | (Returned a, st') => (Returned a, st', [EvCall c])
    | (Thrown e, st') => (Thrown e, st', [EvCall c; EvThrow e])
    end.

(** [respond(json)] *)
Definition respond (json : string) : M unit :=
  fun st => (Returned tt, st, [EvWrite json]).

Definition respond_ok (extra : string) : M unit := respond (ok_line extra).
Definition respond_error (msg : string) : M unit := respond (error_line msg).

(** [std::vector<char> buf(size)], once allocated, after [GetBlob] has
    filled it: [size] bytes, those the engine wrote and zeros behind them. *)
Definition buffer (size : N) (written : list ascii) : list ascii :=
  firstn (N.to_nat size) (written ++ repeat zero (N.to_nat size)).

Definition size_of {A} (l : list A) : N := N.of_nat (List.length l).

(** The [try] block of the loop, for the line [line] whose command is [cmd]. *)
Definition handle (line cmd : string) : M flow :=
  if cmd =? "put" then
    let tag_name := json_get line "tag" in
    let blob_name := json_get line "blob" in
    let hex_data := json_get line "data" in
    if empty tag_name || empty blob_name then
      respond_error "put requires tag and blob" ;;; ret Next
    else
      let data := from_hex hex_data in
      tag <- invoke (CallTag tag_name) (NewTag F tag_name) ;;
      invoke (CallPutBlob tag_name blob_name data)
             (PutBlob F tag blob_name data) ;;;
      respond_ok (quoted "size" ++ ":" ++ to_string (size_of data)) ;;;
      ret Next
  else if cmd =? "get" then
    let tag_name := json_get line "tag" in
    let blob_name := json_get line "blob" in
    if empty tag_name || empty blob_name then
      respond_error "get requires tag and blob" ;;; ret Next
    else
      tag <- invoke (CallTag tag_name) (NewTag F tag_name) ;;
      size <- invoke (CallGetBlobSize tag_name blob_name)
                     (GetBlobSize F tag blob_name) ;;
      if (size =? 0)%N then
        respond_error "blob not found or empty" ;;; ret Next
      else
        invoke (CallNewBuffer size) (NewBuffer F size) ;;;
        written <- invoke (CallGetBlob tag_name blob_name size)
                          (GetBlob F tag blob_name size) ;;
        respond_ok (quoted "size" ++ ":" ++ to_string size ++ ","
                    ++ quoted "data" ++ ":"
                    ++ quoted (to_hex (buffer size written))) ;;;
        ret Next
  else if cmd =? "get_size" then
    let tag_name := json_get line "tag" in
    let blob_name := json_get line "blob" in
    tag <- invoke (CallTag tag_name) (NewTag F tag_name) ;;
    size <- invoke (CallGetBlobSize tag_name blob_name)
                   (GetBlobSize F tag blob_name) ;;
    respond_ok (quoted "size" ++ ":" ++ to_string size) ;;;
    ret Next
  else if cmd =? "list_blobs" then
    let tag_name := json_get line "tag" in
    tag <- invoke (CallTag tag_name) (NewTag F tag_name) ;;
    blobs <- invoke (CallGetContainedBlobs tag_name)
                    (GetContainedBlobs F tag) ;;
    let arr := "[" ++ join_names 0 blobs ++ "]" in
    respond_ok (quoted "blobs" ++ ":" ++ arr) ;;;
    ret Next
  else if cmd =? "tag_query" then
    let pattern := json_get line "pattern" in
    let pattern := if empty pattern then ".*" else pattern in
    tags <- invoke (CallTagQuery pattern) (TagQuery F pattern) ;;
    let arr := "[" ++ join_names 0 tags ++ "]" in
    respond_ok (quoted "tags" ++ ":" ++ arr) ;;;
    ret Next
  else if cmd =? "del_blob" then
    let tag_name := json_get line "tag" in
    let blob_name := json_get line "blob" in
    tag <- invoke (CallTag tag_name) (NewTag F tag_name) ;;
    id <- invoke (CallGetTagId tag_name) (GetTagId F tag) ;;
    invoke (CallDelBlob tag_name blob_name) (DelBlob F id blob_name) ;;;
    respond_ok "" ;;;
    ret Next
  else if cmd =? "del_tag" then
    let tag_name := json_get line "tag" in
    invoke (CallDelTag tag_name) (DelTag F tag_name) ;;;
    respond_ok "" ;;;
    ret Next
  else if cmd =? "ping" then
    respond_ok "" ;;; ret Next
  else if (cmd =? "quit") || (cmd =? "exit") then
    respond_ok "" ;;; ret Break
  else
    respond_error ("unknown command: " ++ cmd) ;;; ret Next.

(** The message of the two [catch] clauses that close the [try] block. *)
Definition caught_message (e : exn) : string :=
  match e with
  | StdException what => "exception: " ++ what
  | OtherException => "unknown exception"
  end.

(** [line.empty() || line[0] == '#'] *)
Definition skipped (line : string) : bool :=
  match line with
  | EmptyString => true
  | String c _ => Ascii.eqb c "#"
  end.

(** The body of the [while] loop for one line already read. *)
Definition iteration (line : string) (st : backend F)
  : flow * backend F * list event :=
  if skipped line then (Next, st, [])
  else
    let cmd := json_get line "cmd" in
    match handle line cmd st with
    | (Returned f, st', tr) => (f, st', tr)
    | (Thrown e, st', tr) =>
        (Next, st', (tr ++ [EvWrite (error_line (caught_message e))])%list)
    end.

(** [while (std::getline(std::cin, line)) { ... }] over the lines that the
    standard input still holds. *)
Fixpoint loop (lines : list string) (st : backend F)
  : backend F * list event :=
  match lines with
  | [] => (st, [])
  | line :: rest =>
      match iteration line st with
      | (Next, st', tr) =>
          match loop rest st' with
          | (st'', tr') => (st'', EvRead line :: (tr ++ tr')%list)
          end
      | (Break, st', tr) => (st', EvRead line :: tr)
      end
  end.

(** The second [try] block of [main]: the fields of the readiness record. *)
Definition init_info (st : backend F) : string * backend F * list event :=
  match invoke CallListTargets (ListTargets F) st with
  | (Returned targets, st', tr) =>
      (quoted "targets" ++ ":[" ++ join_names 0 targets ++ "],"
         ++ quoted "target_count" ++ ":" ++ to_string (size_of targets),
       st', tr)
  | (Thrown (StdException what), st', tr) =>
      (quoted "targets_error" ++ ":" ++ quoted (escape_json what), st', tr)
  | (Thrown OtherException, st', tr) =>
      (quoted "targets_error" ++ ":" ++ quoted "unknown", st', tr)
  end.

(** [main], on the lines of the standard input. The first [try] block has a
    single clause, [catch (const std::exception &e)]: another exception
    leaves [main]. *)
Definition main (stdin : list string) (st : backend F)
  : termination * backend F * list event :=
  match invoke CallInit (WRP_CTE_CLIENT_INIT F) st with
  | (Returned false, st', tr) =>
      (Exit 1, st',
       (tr ++ [EvWrite (error_line "WRP_CTE_CLIENT_INIT failed")])%list)
  | (Thrown (StdException what), st', tr) =>
      (Exit 1, st',
       (tr ++ [EvWrite (error_line ("Init exception: " ++ what))])%list)
  | (Thrown OtherException, st', tr) => (Terminate, st', tr)
  | (Returned true, st', tr) =>
      match init_info st' with
      | (info, st1, tr1) =>
          let ready :=
            "{" ++ quoted "status" ++ ":" ++ quoted "ready" ++ "," ++ info
                ++ "}" in
          match loop stdin st1 with
          | (st2, tr2) => (Exit 0, st2, (tr ++ tr1 ++ [EvWrite ready] ++ tr2)%list)
          end
      end
  end.

End WithFacade.

End Dispatcher.

(** ** Engines to run the helper against *)

Module Engines.

(** An engine in memory: the blobs, newest first, as (tag, blob, bytes). *)
Definition blobs : Type := list (string * string * list ascii).

(** The allocation of a buffer by a runtime that gives up to [limit] bytes
    and throws a [std::exception] described by [what] beyond them. *)
Definition new_buffer {S : Type} (what : string) (limit size : N) (st : S)
  : outcome unit * S :=
  if (size <=? limit)%N then (Returned tt, st)
  else (Thrown (StdException what), st).

(** [PTRDIFF_MAX], the longest [std::vector<char>]. *)
Definition max_size : N := 9223372036854775807.

Definition same (tag_name blob_name : string)
  (entry : string * string * list ascii) : bool :=
  match entry with
  | (t, b, _) => (t =? tag_name) && (b =? blob_name)
  end.

Definition lookup (tag_name blob_name : string) (st : blobs)
  : option (list ascii) :=
  match find (same tag_name blob_name) st with
  | Some (_, _, data) => Some data
  | None => None
  end.

Definition in_tag (tag_name : string) (entry : string * string * list ascii)
  : bool :=
  match entry with (t, _, _) => t =? tag_name end.

Definition memory : Facade := {|
  backend := blobs;
  Tag := string;
  TagId := string;
  WRP_CTE_CLIENT_INIT := fun st => (Returned true, st);
  ListTargets := fun st => (Returned ["ram"], st);
  NewTag := fun name st => (Returned name, st);
  PutBlob := fun tag blob data st =>
    (Returned tt,
     (tag, blob, data) :: filter (fun e => negb (same tag blob e)) st);
  GetBlobSize := fun tag blob st =>
    (Returned match lookup tag blob st with
              | Some data => N.of_nat (List.length data)
              | None => 0%N
              end, st);
  NewBuffer :=
    new_buffer "cannot create std::vector larger than max_size()" max_size;
  GetBlob := fun tag blob _ st =>
    (Returned match lookup tag blob st with
              | Some data => data
              | None => []
              end, st);
  GetContainedBlobs := fun tag st =>
    (Returned (map (fun e => snd (fst e)) (filter (in_tag tag) st)), st);
  GetTagId := fun tag st => (Returned tag, st);
  TagQuery := fun _ st => (Returned (map (fun e => fst (fst e)) st), st);
  DelBlob := fun id blob st =>
    (Returned tt, filter (fun e => negb (same id blob e)) st);
  DelTag := fun tag st =>
    (Returned tt, filter (fun e => negb (in_tag tag e)) st)
|}.

(** An engine whose initialisation ends as [init] says and whose every other
    operation throws [e]. *)
Definition failing (init : outcome bool) (e : exn) : Facade := {|
  backend := unit;
  Tag := unit;
  TagId := unit;
  WRP_CTE_CLIENT_INIT := fun st => (init, st);
  ListTargets := fun st => (Thrown e, st);
  NewTag := fun _ st => (Thrown e, st);
  PutBlob := fun _ _ _ st => (Thrown e, st);
  GetBlobSize := fun _ _ st => (Thrown e, st);
  NewBuffer := fun _ st => (Thrown e, st);
  GetBlob := fun _ _ _ st => (Thrown e, st);
  GetContainedBlobs := fun _ st => (Thrown e, st);
  GetTagId := fun _ st => (Thrown e, st);
  TagQuery := fun _ st => (Thrown e, st);
  DelBlob := fun _ _ st => (Thrown e, st);
  DelTag := fun _ st => (Thrown e, st)
|}.

(** The engine in memory, in a process that has [limit] bytes for the buffer
    of a [get] and meets a larger one with [std::bad_alloc]. *)
Definition cramped (limit : N) : Facade := {|
  backend := backend memory;
  Tag := Tag memory;
  TagId := TagId memory;
  WRP_CTE_CLIENT_INIT := WRP_CTE_CLIENT_INIT memory;
  ListTargets := ListTargets memory;
  NewTag := NewTag memory;
  PutBlob := PutBlob memory;
  GetBlobSize := GetBlobSize memory;
  NewBuffer := new_buffer "std::bad_alloc" limit;
  GetBlob := GetBlob memory;
  GetContainedBlobs := GetContainedBlobs memory;
  GetTagId := GetTagId memory;
  TagQuery := TagQuery memory;
  DelBlob := DelBlob memory;
  DelTag := DelTag memory
|}.

(** A request line: a flat object of string fields, in the order given. *)
Fixpoint fields (kvs : list (string * string)) : string :=
  match kvs with
  | [] => ""
  | [(k, v)] => quoted k ++ ":" ++ quoted v
  | (k, v) :: rest => quoted k ++ ":" ++ quoted v ++ "," ++ fields rest
  end.

Definition request (kvs : list (string * string)) : string :=
  "{" ++ fields kvs ++ "}".

End Engines.

(** * Vocabulary of the properties *)

Module Spec.
Import Hex Json Encoder Dispatcher Engines.

(** Every character of a string satisfies [p]. *)
Fixpoint all_chars (p : ascii -> bool) (s : string) : bool :=
  match s with
  | EmptyString => true
  | String c rest => p c && all_chars p rest
  end.

(** Membership of a character in a string. *)
Definition char_in (set : string) (c : ascii) : bool :=
  existsb (Ascii.eqb c) (list_ascii_of_string set).

(** The digits [to_hex] may write, and the digits [from_hex] gives a value. *)
Definition lower_hex_digit : ascii -> bool := char_in "0123456789abcdef".
Definition hex_digit : ascii -> bool := char_in "0123456789abcdefABCDEF".

(** The four characters the escaper rewrites. *)
Definition escaped_set : string :=
  String dquote (String backslash (String newline (str1 tab))).

(** The unescaping the specification asks of the extractor: a backslash
    followed by a double quote gives a double quote, and two backslashes give
    one. *)
Fixpoint spec_unescape (s : string) : string :=
  match s with
  | EmptyString => EmptyString
  | String b t =>
      match t with
      | EmptyString => str1 b
      | String c rest =>
          if Ascii.eqb b backslash
             && (Ascii.eqb c dquote || Ascii.eqb c backslash)
          then String c (spec_unescape rest)
          else String b (spec_unescape t)
      end
  end.

Definition blank (c : ascii) : bool := Ascii.eqb c space || Ascii.eqb c tab.
Definition not_dquote (c : ascii) : bool := negb (Ascii.eqb c dquote).

(** The events of the standard streams. *)
Definition is_io (e : event) : bool :=
  match e with
  | EvRead _ | EvWrite _ => true
  | EvCall _ | EvThrow _ => false
  end.

Definition io (tr : list event) : list event := filter is_io tr.

(** The lines read and the lines written, as they must interleave: each line
    read is followed by no response when it is blank or a comment, and by one
    response otherwise, before the next line is read. *)
Inductive framed : list string -> list event -> Prop :=
| framed_end : framed [] []
| framed_skip line lines tr :
    skipped line = true -> framed lines tr ->
    framed (line :: lines) (EvRead line :: tr)
| framed_answer line response lines tr :
    skipped line = false -> framed lines tr ->
    framed (line :: lines) (EvRead line :: EvWrite response :: tr).

(** The events of a command that ends normally, and of one that throws. *)
Definition answered (tr : list event) : Prop :=
  exists calls response, tr = (map EvCall calls ++ [EvWrite response])%list.

Definition interrupted (e : exn) (tr : list event) : Prop :=
  exists calls c, tr = (map EvCall calls ++ [EvCall c; EvThrow e])%list.

(** The commands of the dispatcher. *)
Definition recognized (cmd : string) : bool :=
  existsb (String.eqb cmd)
    ["put"; "get"; "get_size"; "list_blobs"; "tag_query"; "del_blob";
     "del_tag"; "ping"; "quit"; "exit"].

(** The command table of the specification: the fields each command
    requires. *)
Definition spec_required (cmd : string) : list string :=
  if cmd =? "put" then ["tag"; "blob"; "data"]
  else if cmd =? "get" then ["tag"; "blob"]
  else if cmd =? "get_size" then ["tag"; "blob"]
  else if cmd =? "list_blobs" then ["tag"]
  else if cmd =? "del_blob" then ["tag"; "blob"]
  else if cmd =? "del_tag" then ["tag"]
  else [].

(** A field the table requires is empty or absent in the line. *)
Definition spec_missing_field (line : string) : bool :=
  existsb (fun field => empty (json_get line field))
    (spec_required (json_get line "cmd")).

(** The line is answered by a validation error and nothing else happens. *)
Definition rejected (F : Facade) (line : string) (st : backend F) : Prop :=
  exists message,
    iteration F line st = (Next, st, [EvWrite (error_line message)]).

(** Request lines and an exception to try the helper on. *)
Definition put_request : string :=
  request [("cmd", "put"); ("tag", "t1"); ("blob", "b1");
           ("data", "48656c6c6f")].

Definition get_request : string :=
  request [("cmd", "get"); ("tag", "t1"); ("blob", "b1")].

Definition put_without_data : string :=
  request [("cmd", "put"); ("tag", "t"); ("blob", "b")].

Definition get_without_blob : string :=
  request [("cmd", "get"); ("tag", "t")].

Definition get_size_without_tag : string :=
  request [("cmd", "get_size"); ("blob", "b")].

Definition put_zz : string :=
  request [("cmd", "put"); ("tag", "t"); ("blob", "b"); ("data", "zz")].

Definition bogus_request : string := request [("cmd", "bogus")].

Definition boom : exn := StdException "boom".

End Spec.

(** ** Vocabulary of the further properties *)

Module Terms.
Import Hex Json Encoder Dispatcher Engines Spec.

(** A function applied to every character of a string. *)
Fixpoint map_chars (f : ascii -> ascii) (s : string) : string :=
  match s with
  | EmptyString => EmptyString
  | String c rest => String (f c) (map_chars f rest)
  end.

(** The lower case of an ASCII letter; any other character is kept. *)
Definition to_lower (c : ascii) : ascii :=
  if (code "A" <=? code c)%Z && (code c <=? code "Z")%Z
  then to_char (code c + 32)
  else c.

(** The characters [trim_back] removes, those that end a bare token, and
    those that may start one. *)
Definition trimmed (c : ascii) : bool :=
  Ascii.eqb c space || Ascii.eqb c newline.
Definition terminator : ascii -> bool := char_in ",}]".
Definition plain (c : ascii) : bool := negb (terminator c).
Definition starts_token (tok : string) : bool :=
  match tok with
  | EmptyString => true
  | String c _ => negb (blank c) && not_dquote c
  end.

(** What may follow a bare token: the end of the line or a terminator. *)
Definition ends_token (rest : string) : bool :=
  match rest with
  | EmptyString => true
  | String c _ => terminator c
  end.

(** A character that does not end a line, or break one in two columns. *)
Definition not_newline (c : ascii) : bool := negb (Ascii.eqb c newline).
Definition not_newline_tab (c : ascii) : bool :=
  negb (Ascii.eqb c newline) && negb (Ascii.eqb c tab).

(** The lines written, the calls made and the lines read in a run. *)
Definition writes (tr : list event) : list string :=
  flat_map (fun e => match e with EvWrite w => [w] | _ => [] end) tr.
Definition calls (tr : list event) : list call :=
  flat_map (fun e => match e with EvCall c => [c] | _ => [] end) tr.
Definition reads (tr : list event) : list string :=
  flat_map (fun e => match e with EvRead l => [l] | _ => [] end) tr.

(** The line is a [quit] or [exit] command. *)
Definition is_quit (line : string) : bool :=
  negb (skipped line)
  && ((json_get line "cmd" =? "quit") || (json_get line "cmd" =? "exit")).

(** The number of lines the loop takes from the input: all of them, or those
    up to the first [quit] or [exit], that one included. *)
Fixpoint consumed (lines : list string) : nat :=
  match lines with
  | [] => 0
  | line :: rest => if is_quit line then 1 else S (consumed rest)
  end.

(** A response is an ok line or an error line. *)
Definition is_response (w : string) : Prop :=
  (exists extra, w = ok_line extra) \/ (exists msg, w = error_line msg).

(** The element of a JSON array for one name. *)
Definition element (name : string) : string := quoted (escape_json name).

(** Every line written by a piece of code satisfies [P]. *)
Definition writes_only (F : Facade) (P : string -> Prop) {A} (m : M F A)
  : Prop :=
  forall st, Forall P (writes (snd (m st))).

(** The commands that are carried out by the engine. *)
Definition engine_command (cmd : string) : bool :=
  existsb (String.eqb cmd)
    ["put"; "get"; "get_size"; "list_blobs"; "tag_query"; "del_blob";
     "del_tag"].

(** More request lines. *)
Definition tag_query_request : string := request [("cmd", "tag_query")].

Definition ping_request : string := request [("cmd", "ping")].

Definition put_odd : string :=
  request [("cmd", "put"); ("tag", "t"); ("blob", "b"); ("data", "4869f")].

End Terms.

(** * Properties *)

(** ** Strings *)

Module StringFacts.

Lemma append_nil_r (s : string) : s ++ "" = s.
Proof. induction s as [|c s IH]; simpl; [reflexivity | now rewrite IH]. Qed.

Lemma append_assoc (a b c : string) : (a ++ b) ++ c = a ++ (b ++ c).
Proof. induction a as [|x a IH]; simpl; [reflexivity | now rewrite IH]. Qed.

Lemma length_append (a b : string) : length (a ++ b) = length a + length b.
Proof. induction a as [|x a IH]; simpl; [reflexivity | now rewrite IH]. Qed.

Lemma get_append_r (a b : string) (n : nat) :
  get (length a + n) (a ++ b) = get n b.
Proof. induction a as [|x a IH]; simpl; [reflexivity | exact IH]. Qed.

Lemma get_here (a b : string) (c : ascii) :
  get (length a) (a ++ String c b) = Some c.
Proof.
  rewrite <- (Nat.add_0_r (length a)). now rewrite get_append_r.
Qed.

Lemma substring_append_r (a b : string) (n m : nat) :
  substring (length a + n) m (a ++ b) = substring n m b.
Proof. induction a as [|x a IH]; simpl; [reflexivity | exact IH]. Qed.

Lemma substring_prefix (a b : string) :
  substring 0 (length a) (a ++ b) = a.
Proof.
  induction a as [|x a IH]; simpl.
  - now destruct b.
  - now rewrite IH.
Qed.

(** Looking for [needle] from a position behind [a] is looking for it in what
    follows [a]. *)
Lemma index_append_r (a b needle : string) (n : nat) :
  index (length a + n) needle (a ++ b)
  = option_map (Nat.add (length a)) (index n needle b).
Proof.
  induction a as [|x a IH]; simpl.
  - now destruct (index n needle b).
  - rewrite IH. now destruct (index n needle b).
Qed.

End StringFacts.

(** ** Hex codec *)

Module HexFacts.
Import Hex Spec.

Ltac each_char c := destruct c as [[] [] [] [] [] [] [] []].

Lemma decode_pair (d : ascii) :
  to_char (Z.lor (Z.shiftl (nibble (hex_at (Z.shiftr (code d) 4))) 4)
                 (nibble (hex_at (Z.land (code d) 15)))) = d.
Proof. each_char d; reflexivity. Qed.

Lemma high_digit (d : ascii) :
  nibble (hex_at (Z.shiftr (code d) 4)) = (code d / 16)%Z
  /\ lower_hex_digit (hex_at (Z.shiftr (code d) 4)) = true.
Proof. each_char d; split; reflexivity. Qed.

Lemma low_digit (d : ascii) :
  nibble (hex_at (Z.land (code d) 15)) = (code d mod 16)%Z
  /\ lower_hex_digit (hex_at (Z.land (code d) 15)) = true.
Proof. each_char d; split; reflexivity. Qed.

Lemma nibble_not_digit (c : ascii) : hex_digit c = false -> nibble c = 0%Z.
Proof. each_char c; intros H; first [reflexivity | discriminate H]. Qed.

Lemma from_hex_length (s : string) :
  List.length (from_hex s) = Nat.div2 (length s).
Proof.
  revert s.
  fix IH 1. intros [|h0 [|h1 rest]]; simpl; try reflexivity.
  now rewrite IH.
Qed.

(** C3. Decoding the hex encoding of any byte sequence [b] gives [b] back;
    the encoding has two characters per byte, all of them lowercase hex
    digits, and the first of each pair holds the most significant nibble. *)
Theorem hex_round_trip (b : list ascii) :
  from_hex (to_hex b) = b
  /\ length (to_hex b) = 2 * List.length b
  /\ all_chars lower_hex_digit (to_hex b) = true
  /\ forall d rest, exists hi lo,
       to_hex (d :: rest) = String hi (String lo (to_hex rest))
       /\ nibble hi = (code d / 16)%Z /\ nibble lo = (code d mod 16)%Z.
Proof.
  repeat split.
  - induction b as [|d rest IH]; [reflexivity|].
    cbn [to_hex from_hex]. now rewrite decode_pair, IH.
  - induction b as [|d rest IH]; [reflexivity|].
    cbn [to_hex length List.length]. rewrite IH. lia.
  - induction b as [|d rest IH]; [reflexivity|].
    cbn [to_hex all_chars].
    destruct (high_digit d) as [_ ->], (low_digit d) as [_ ->]. exact IH.
  - intros d rest.
    exists (hex_at (Z.shiftr (code d) 4)), (hex_at (Z.land (code d) 15)).
    split; [reflexivity|].
    split; [apply high_digit | apply low_digit].
Qed.

End HexFacts.

(** ** Response encoder *)

Module EncoderFacts.
Import Encoder Spec StringFacts.

Lemma escape_loop_out (out s : string) :
  escape_loop out s = out ++ escape_json s.
Proof.
  unfold escape_json. revert out.
  induction s as [|c s IH]; intros out; simpl.
  - now rewrite append_nil_r.
  - rewrite IH, (IH (escape_char c)). apply append_assoc.
Qed.

Lemma escape_json_cons (c : ascii) (s : string) :
  escape_json (String c s) = escape_char c ++ escape_json s.
Proof. unfold escape_json at 1. simpl. apply escape_loop_out. Qed.

Lemma escape_json_append (a b : string) :
  escape_json (a ++ b) = escape_json a ++ escape_json b.
Proof.
  induction a as [|c a IH]; [reflexivity|].
  cbn [append]. now rewrite !escape_json_cons, IH, append_assoc.
Qed.

Lemma escape_char_other (c : ascii) :
  char_in escaped_set c = false -> escape_char c = str1 c.
Proof.
  unfold char_in, escaped_set, escape_char.
  cbn [list_ascii_of_string existsb str1].
  intros H. repeat (apply orb_false_elim in H; destruct H as [-> H]).
  reflexivity.
Qed.

(** C10. The escaper rewrites the double quote, the backslash, the newline
    and the tab, each to its two-character sequence; any other character [c]
    is copied as it is, wherever it stands in the message; so a carriage
    return reaches the response line raw. *)
Theorem escape_json_four_characters (c : ascii) (a b : string)
  (Hc : char_in escaped_set c = false) :
  escape_json (a ++ String c b) = escape_json a ++ String c (escape_json b)
  /\ escape_json (str1 dquote) = String backslash (str1 dquote)
  /\ escape_json (str1 backslash) = String backslash (str1 backslash)
  /\ escape_json (str1 newline) = String backslash "n"
  /\ escape_json (str1 tab) = String backslash "t"
  /\ (forall x, (escape_json (str1 x) =? str1 x)
                = negb (char_in escaped_set x))
  /\ error_line (String "a" (String carriage_return "b"))
     = "{" ++ quoted "status" ++ ":" ++ quoted "error" ++ ","
           ++ quoted "message" ++ ":"
           ++ quoted (String "a" (String carriage_return "b")) ++ "}".
Proof.
  split; [|repeat split; try reflexivity].
  - now rewrite escape_json_append, escape_json_cons, escape_char_other.
  - intros x. destruct x as [[] [] [] [] [] [] [] []]; reflexivity.
Qed.

Lemma escape_json_four_characters_witness :
  char_in escaped_set carriage_return = false
  /\ escape_json (String "a" (String carriage_return "b"))
     = String "a" (String carriage_return "b").
Proof.
  split; [reflexivity|].
  exact (proj1 (escape_json_four_characters carriage_return "a" "b" eq_refl)).
Defined.

End EncoderFacts.

(** ** Field extractor *)

Module JsonFacts.
Import Json Spec StringFacts.

(** The blanks behind position [length a] are all skipped, given the fuel. *)
Lemma skip_blanks_run (ws : string) :
  forall (a b : string) (c : ascii) (fuel : nat),
    all_chars blank ws = true -> blank c = false -> length ws < fuel ->
    skip_blanks fuel (a ++ ws ++ String c b) (length a)
    = length a + length ws.
Proof.
  induction ws as [|w ws IH]; intros a b c fuel Hws Hc Hfuel.
  - destruct fuel as [|fuel]; [inversion Hfuel|].
    cbn [append skip_blanks length]. rewrite get_here.
    unfold blank in Hc. rewrite Hc. lia.
  - destruct fuel as [|fuel]; [inversion Hfuel|].
    cbn [all_chars] in Hws. apply andb_prop in Hws as [Hw Hws].
    cbn [append skip_blanks length]. rewrite get_here.
    unfold blank in Hw. rewrite Hw.
    replace (a ++ String w (ws ++ String c b))
      with ((a ++ str1 w) ++ ws ++ String c b)
      by (now rewrite append_assoc).
    replace (S (length a)) with (length (a ++ str1 w))
      by (rewrite length_append; simpl; lia).
    rewrite IH; try assumption.
    + rewrite length_append. simpl. lia.
    + simpl in Hfuel. lia.
Qed.

(** The first double quote of [v ++ dquote :: rest] closes [v] when [v] has
    none. *)
Lemma index_closing_quote (v rest : string) :
  all_chars not_dquote v = true ->
  index 0 (str1 dquote) (v ++ String dquote rest) = Some (length v).
Proof.
  induction v as [|c v IH]; intros Hv.
  - destruct rest; reflexivity.
  - cbn [all_chars] in Hv. apply andb_prop in Hv as [Hc Hv].
    cbn [append length]. unfold str1 in *. cbn [index prefix].
    unfold not_dquote in Hc. apply negb_true_iff in Hc.
    destruct (ascii_dec dquote c) as [E|_].
    + subst c. now rewrite Ascii.eqb_refl in Hc.
    + now rewrite (IH Hv).
Qed.

(** The extractor on a line cut at the opening quote of the value: [head]
    ends with the search text and the blanks, [v] has no double quote. *)
Lemma json_get_at_quote (head v rest key : string) (found : nat) :
  let line := head ++ String dquote (v ++ String dquote rest) in
  index 0 (search_of key) line = Some found ->
  skip_blanks (length line) line (found + length (search_of key))
  = length head ->
  all_chars not_dquote v = true ->
  json_get line key = v.
Proof.
  intros line Hfound Hskip Hv. unfold json_get.
  fold line. rewrite Hfound, Hskip.
  assert (Hlen : (length line <=? length head)%nat = false).
  { apply Nat.leb_gt. unfold line. rewrite length_append. simpl. lia. }
  rewrite Hlen. unfold line at 1. rewrite get_here.
  change (Ascii.eqb dquote dquote) with true. cbv iota.
  assert (Hline : line = (head ++ str1 dquote) ++ v ++ String dquote rest).
  { unfold line. now rewrite append_assoc. }
  assert (Hpos : S (length head) = length (head ++ str1 dquote) + 0).
  { rewrite length_append. simpl. lia. }
  rewrite Hpos, Hline.
  rewrite index_append_r.
  rewrite (index_closing_quote v rest Hv). cbn [option_map].
  replace (length (head ++ str1 dquote) + length v
           - (length (head ++ str1 dquote) + 0)) with (length v) by lia.
  rewrite substring_append_r. apply substring_prefix.
Qed.

(** C2, as the code has it. When the first occurrence of the quoted key and
    its colon is followed by blanks and a double-quoted value, the extractor
    returns the characters between the opening quote and the next double
    quote exactly as they stand in the line: nothing is unescaped. A value
    [v] without a double quote comes back as [v], its backslashes included,
    whatever follows the closing quote. *)
Theorem json_get_returns_raw_text (pre key ws v rest : string) :
  let line :=
    pre ++ search_of key ++ ws ++ String dquote (v ++ String dquote rest) in
  index 0 (search_of key) line = Some (length pre) ->
  all_chars blank ws = true ->
  all_chars not_dquote v = true ->
  json_get line key = v.
Proof.
  intros line Hfound Hws Hv.
  assert (Hline : line = ((pre ++ search_of key) ++ ws)
                           ++ String dquote (v ++ String dquote rest)).
  { unfold line. now rewrite !append_assoc. }
  revert Hfound. rewrite Hline. intros Hfound.
  apply json_get_at_quote with (found := length pre); try assumption.
  rewrite <- length_append.
  rewrite (append_assoc (pre ++ search_of key)).
  rewrite skip_blanks_run; try assumption; try reflexivity.
  - now rewrite <- length_append.
  - rewrite !length_append. simpl. lia.
Qed.

(** A value with two backslashes in a row, returned with both, and a value
    with an escaped quote, returned up to its backslash. *)
Lemma json_get_returns_raw_text_witness :
  json_get
    ("{" ++ search_of "k" ++ " "
         ++ String dquote ("a\\b" ++ String dquote "}")) "k" = "a\\b"
  /\ json_get
       ("{" ++ search_of "k" ++ ""
            ++ String dquote ("a\" ++ String dquote ("b" ++ quoted "}"))) "k"
     = "a\".
Proof.
  split.
  - apply (json_get_returns_raw_text "{" "k" " " "a\\b" "}"); reflexivity.
  - apply (json_get_returns_raw_text "{" "k" "" "a\" ("b" ++ quoted "}"));
      reflexivity.
Defined.

(** C2 as the specification words it fails: of two backslashes in a row
    both are returned, and a value with a backslash and a double quote in it
    is cut behind the backslash. *)
Lemma json_get_does_not_unescape :
  let two_backslashes := String "a" (String backslash (String backslash "b")) in
  let escaped_quote := String "a" (String backslash (String dquote "b")) in
  json_get ("{" ++ quoted "k" ++ ":" ++ quoted two_backslashes ++ "}") "k"
    = two_backslashes
  /\ spec_unescape two_backslashes = String "a" (String backslash "b")
  /\ json_get ("{" ++ quoted "k" ++ ":" ++ quoted two_backslashes ++ "}") "k"
     <> spec_unescape two_backslashes
  /\ json_get ("{" ++ quoted "k" ++ ":" ++ quoted escaped_quote ++ "}") "k"
     = String "a" (str1 backslash)
  /\ spec_unescape escaped_quote = String "a" (String dquote "b")
  /\ json_get ("{" ++ quoted "k" ++ ":" ++ quoted escaped_quote ++ "}") "k"
     <> spec_unescape escaped_quote.
Proof. repeat split; try reflexivity; discriminate. Qed.

End JsonFacts.

(** ** Dispatcher *)

Module DispatcherFacts.
Import Hex Json Encoder Dispatcher Engines Spec Terms HexFacts.

Ltac show_calls :=
  first
    [ exists []; eexists; reflexivity
    | eexists [_]; eexists; reflexivity
    | eexists [_; _]; eexists; reflexivity
    | eexists [_; _; _]; eexists; reflexivity
    | eexists [_; _; _; _]; eexists; reflexivity ].

Ltac run_engine :=
  repeat match goal with
    | |- context [match ?op ?st with _ => _ end] =>
        let r := fresh "r" in
        let st' := fresh "st" in
        let a := fresh "a" in
        let e := fresh "e" in
        destruct (op st) as [[a|e] st']; cbn
    | |- context [if ?b then _ else _] => destruct b; cbn
    end.

Section WithFacade.

Variable F : Facade.

Lemma handle_shape (line cmd : string) (st : backend F) :
  match handle F line cmd st with
  | (Returned _, _, tr) => answered tr
  | (Thrown e, _, tr) => interrupted e tr
  end.
Proof.
  unfold handle, answered, interrupted, bind, invoke, respond_ok,
    respond_error, respond, ret.
  run_engine; show_calls.
Qed.

Lemma io_app (a b : list event) : io (a ++ b) = (io a ++ io b)%list.
Proof. apply filter_app. Qed.

Lemma io_calls (calls : list call) : io (map EvCall calls) = [].
Proof. induction calls as [|c calls IH]; [reflexivity | exact IH]. Qed.

Lemma answered_no_throw (e : exn) (tr : list event) :
  answered tr -> ~ In (EvThrow e) tr.
Proof.
  intros (calls & response & ->) Hin.
  apply in_app_or in Hin as [Hin | [Hin | []]]; [|discriminate Hin].
  apply in_map_iff in Hin as (c & Hc & _). discriminate Hc.
Qed.

Lemma interrupted_throw (e e' : exn) (tr : list event) (response : string) :
  interrupted e' tr -> In (EvThrow e) (tr ++ [EvWrite response]) -> e = e'.
Proof.
  intros (calls & c & ->) Hin.
  rewrite <- app_assoc in Hin.
  apply in_app_or in Hin as [Hin | Hin].
  - apply in_map_iff in Hin as (c' & Hc & _). discriminate Hc.
  - cbn in Hin. destruct Hin as [Hin | [Hin | [Hin | []]]];
      first [discriminate Hin | now injection Hin].
Qed.

(** What one pass of the loop puts on the standard output. *)
Lemma iteration_io (line : string) (st : backend F) :
  exists response,
    io (snd (iteration F line st))
    = if skipped line then [] else [EvWrite response].
Proof.
  unfold iteration. destruct (skipped line); [now exists ""|].
  pose proof (handle_shape line (json_get line "cmd") st) as Hshape.
  destruct (handle F line (json_get line "cmd") st) as [[[f|e] st'] tr];
    cbn [snd].
  - destruct Hshape as (calls & response & ->). exists response.
    now rewrite io_app, io_calls.
  - destruct Hshape as (calls & c & ->).
    exists (error_line (caught_message e)).
    now rewrite !io_app, io_calls.
Qed.

(** How a pass through the loop ends, by its command. *)
Lemma handle_flow (line cmd : string) (st : backend F) :
  let quits := (cmd =? "quit") || (cmd =? "exit") in
  match handle F line cmd st with
  | (Returned f, _, _) => f = if quits then Break else Next
  | (Thrown _, _, _) => quits = false
  end.
Proof.
  unfold handle.
  repeat match goal with
    | |- context [String.eqb cmd ?l] =>
        destruct (String.eqb_spec cmd l); [subst cmd|]
    end;
    unfold bind, invoke, respond_ok, respond_error, respond, ret; cbn;
    run_engine; reflexivity.
Qed.

Lemma iteration_flow (line : string) (st : backend F) :
  fst (fst (iteration F line st)) = if is_quit line then Break else Next.
Proof.
  unfold iteration, is_quit. destruct (skipped line); [reflexivity|].
  pose proof (handle_flow line (json_get line "cmd") st) as H.
  cbv zeta in H. cbn [negb andb].
  destruct (handle F line (json_get line "cmd") st) as [[[f|e] st'] tr];
    cbn [fst]; [exact H | now rewrite H].
Qed.

(** The lines read are those up to the first [quit] or [exit]. *)
Lemma loop_framed (lines : list string) (st : backend F) :
  framed (firstn (consumed lines) lines) (io (snd (loop F lines st))).
Proof.
  revert st. induction lines as [|line rest IH]; intros st; [constructor|].
  cbn [loop consumed].
  destruct (iteration_io line st) as [response Hio].
  pose proof (iteration_flow line st) as Hflow.
  destruct (iteration F line st) as [[f st'] tr]. cbn [fst snd] in *.
  destruct (is_quit line); subst f.
  - cbn [snd firstn].
    change (EvRead line :: tr)%list with ([EvRead line] ++ tr)%list.
    rewrite io_app, Hio. cbn [io filter is_io app].
    destruct (skipped line) eqn:Hskip.
    + apply framed_skip; [assumption | constructor].
    + apply framed_answer; [assumption | constructor].
  - specialize (IH st'). destruct (loop F rest st') as [st'' tr'].
    cbn [snd firstn] in *.
    change (EvRead line :: tr ++ tr')%list
      with ([EvRead line] ++ tr ++ tr')%list.
    rewrite !io_app, Hio. cbn [io filter is_io app].
    destruct (skipped line) eqn:Hskip; cbn [app].
    + now apply framed_skip.
    + now apply framed_answer.
Qed.

(** C4. Whatever the engine does, the processing loop reads the lines of the
    input in order, up to its first [quit] or [exit] line or to its end, and
    the lines read and the lines written interleave as [framed] says: a line
    that is empty or starts with [#] is followed by no response, any other
    line by exactly one, written before the next line is read. One pass
    through the loop writes nothing for a line of the first kind and one
    response for a line of the second. *)
Theorem one_response_per_request (lines : list string) (st : backend F) :
  framed (firstn (consumed lines) lines) (io (snd (loop F lines st)))
  /\ forall line st',
       exists response,
         io (snd (iteration F line st'))
         = if skipped line then [] else [EvWrite response].
Proof.
  split.
  - apply loop_framed.
  - intros line st'. apply iteration_io.
Qed.

(** The loop after a pass that did not [break]. *)
Lemma loop_next (line : string) (rest : list string)
  (st st' : backend F) (tr : list event) :
  iteration F line st = (Next, st', tr) ->
  loop F (line :: rest) st
  = (fst (loop F rest st'), EvRead line :: (tr ++ snd (loop F rest st'))%list).
Proof.
  intros H. cbn [loop]. rewrite H. now destruct (loop F rest st').
Qed.

(** C6. When a call into the engine (or the allocation of the buffer of a
    [get]) throws [e] while a line is handled, the exception is caught in the
    loop: the line is answered, right behind the
    failed call, by one error response, whose message is [exception: ]
    followed by the description [what()] of a [std::exception] and
    [unknown exception] for any other object; the loop then goes on with the
    remaining lines. *)
Theorem engine_failure_becomes_error (line : string) (rest : list string)
  (st : backend F) (e : exn) :
  In (EvThrow e) (snd (iteration F line st)) ->
  exists (st' : backend F) (calls : list call) (c : call),
    let message :=
      match e with
      | StdException what => "exception: " ++ what
      | OtherException => "unknown exception"
      end in
    let events :=
      (map EvCall calls
         ++ [EvCall c; EvThrow e; EvWrite (error_line message)])%list in
    iteration F line st = (Next, st', events)
    /\ loop F (line :: rest) st
       = (fst (loop F rest st'),
          EvRead line :: (events ++ snd (loop F rest st'))%list).
Proof.
  intros Hin.
  assert (Hiter : exists st' calls c,
             iteration F line st
             = (Next, st',
                (map EvCall calls
                   ++ [EvCall c; EvThrow e;
                       EvWrite (error_line (caught_message e))])%list)).
  { unfold iteration in *. destruct (skipped line); [destruct Hin|].
    pose proof (handle_shape line (json_get line "cmd") st) as Hshape.
    destruct (handle F line (json_get line "cmd") st) as [[[f|e'] st'] tr];
      cbn [snd] in Hin.
    - now apply answered_no_throw in Hin.
    - pose proof (interrupted_throw _ _ _ _ Hshape Hin) as ->.
      destruct Hshape as (calls & c & ->).
      exists st', calls, c. now rewrite <- app_assoc. }
  destruct Hiter as (st' & calls & c & Hiter).
  exists st', calls, c. cbv zeta.
  change (match e with
          | StdException what => "exception: " ++ what
          | OtherException => "unknown exception"
          end) with (caught_message e).
  split; [exact Hiter | now apply loop_next].
Qed.

(** C7. A line whose command is none of the dispatcher's is answered by the
    error response [unknown command: ] followed by that command, without any
    call into the engine, and the loop goes on with the remaining lines. *)
Theorem unknown_command_is_reported (line : string) (rest : list string)
  (st : backend F) :
  skipped line = false ->
  recognized (json_get line "cmd") = false ->
  let response := error_line ("unknown command: " ++ json_get line "cmd") in
  iteration F line st = (Next, st, [EvWrite response])
  /\ loop F (line :: rest) st
     = (fst (loop F rest st),
        EvRead line :: EvWrite response :: snd (loop F rest st)).
Proof.
  intros Hskip Hcmd response.
  assert (Hiter : iteration F line st = (Next, st, [EvWrite response])).
  { unfold iteration, handle. rewrite Hskip.
    unfold recognized in Hcmd. cbn [existsb] in Hcmd.
    repeat (apply orb_false_elim in Hcmd; destruct Hcmd as [-> Hcmd]).
    reflexivity. }
  split; [exact Hiter|].
  now rewrite (loop_next _ _ _ _ _ Hiter).
Qed.

(** C1, as the code has it. A [put] or [get] line whose tag or blob is empty
    or absent is answered by the validation error [put requires tag and blob]
    (or [get ...]), and no call into the engine is made for it. *)
Theorem put_get_require_tag_and_blob (line cmd : string) (st : backend F) :
  skipped line = false ->
  json_get line "cmd" = cmd ->
  cmd = "put" \/ cmd = "get" ->
  json_get line "tag" = "" \/ json_get line "blob" = "" ->
  iteration F line st
  = (Next, st, [EvWrite (error_line (cmd ++ " requires tag and blob"))]).
Proof.
  intros Hskip Hcmd Hwhich Hmissing.
  assert (Hempty : empty (json_get line "tag")
                   || empty (json_get line "blob") = true).
  { destruct Hmissing as [-> | ->]; [reflexivity | apply orb_true_r]. }
  unfold iteration, handle. rewrite Hskip, Hcmd.
  destruct Hwhich as [-> | ->]; cbn [String.eqb Ascii.eqb Bool.eqb];
    rewrite Hempty; reflexivity.
Qed.

(** A [put] line with a tag and a blob: the data field is decoded and stored
    whatever it holds. *)
Lemma put_stores_decoded (line : string) (st st1 st2 : backend F)
  (tag : Tag F) :
  let tag_name := json_get line "tag" in
  let blob_name := json_get line "blob" in
  let data := from_hex (json_get line "data") in
  skipped line = false ->
  json_get line "cmd" = "put" ->
  tag_name <> "" -> blob_name <> "" ->
  NewTag F tag_name st = (Returned tag, st1) ->
  PutBlob F tag blob_name data st1 = (Returned tt, st2) ->
  iteration F line st
  = (Next, st2,
     [EvCall (CallTag tag_name); EvCall (CallPutBlob tag_name blob_name data);
      EvWrite (ok_line (quoted "size" ++ ":" ++ to_string (size_of data)))]).
Proof.
  intros tag_name blob_name data Hskip Hcmd Htag Hblob Hnew Hput.
  unfold iteration, handle. rewrite Hskip, Hcmd.
  cbn [String.eqb Ascii.eqb Bool.eqb].
  fold tag_name blob_name data.
  destruct tag_name; [contradiction|]. destruct blob_name; [contradiction|].
  cbn [empty orb]. unfold bind, invoke. rewrite Hnew, Hput. reflexivity.
Qed.

(** C5. A [get] line with a tag and a blob, for a blob whose size the engine
    reports as zero (it is absent, or empty), is answered by the error
    response [blob not found or empty], which is no ok response. *)
Theorem get_of_empty_blob_is_an_error (line : string) (st st1 st2 : backend F)
  (tag : Tag F) :
  let tag_name := json_get line "tag" in
  let blob_name := json_get line "blob" in
  skipped line = false ->
  json_get line "cmd" = "get" ->
  tag_name <> "" -> blob_name <> "" ->
  NewTag F tag_name st = (Returned tag, st1) ->
  GetBlobSize F tag blob_name st1 = (Returned 0%N, st2) ->
  iteration F line st
  = (Next, st2,
     [EvCall (CallTag tag_name); EvCall (CallGetBlobSize tag_name blob_name);
      EvWrite (error_line "blob not found or empty")])
  /\ forall extra, error_line "blob not found or empty" <> ok_line extra.
Proof.
  intros tag_name blob_name Hskip Hcmd Htag Hblob Hnew Hsize.
  split.
  - unfold iteration, handle. rewrite Hskip, Hcmd.
    cbn [String.eqb Ascii.eqb Bool.eqb].
    fold tag_name blob_name.
    destruct tag_name; [contradiction|]. destruct blob_name; [contradiction|].
    cbn [empty orb]. unfold bind, invoke. rewrite Hnew, Hsize. reflexivity.
  - intros extra. unfold ok_line. destruct (empty extra); discriminate.
Qed.

End WithFacade.

(** *** Validation of the required fields *)

Lemma put_get_require_tag_and_blob_witness :
  skipped get_without_blob = false
  /\ json_get get_without_blob "blob" = ""
  /\ iteration memory get_without_blob []
     = (Next, [], [EvWrite (error_line "get requires tag and blob")]).
Proof.
  split; [reflexivity|]. split; [reflexivity|].
  apply (put_get_require_tag_and_blob memory get_without_blob "get" []);
    [reflexivity | reflexivity | right; reflexivity | right; reflexivity].
Defined.

(** C1 as the specification words it fails. A [put] line without its data
    field is not rejected: the empty byte sequence is stored under the blob
    and the answer is an ok response. A [get_size] line without its tag is
    not rejected either: the engine is called with the empty name. *)
Lemma required_fields_not_all_checked :
  (recognized (json_get put_without_data "cmd") = true
   /\ spec_missing_field put_without_data = true
   /\ iteration memory put_without_data []
      = (Next, [("t", "b", [])],
         [EvCall (CallTag "t"); EvCall (CallPutBlob "t" "b" []);
          EvWrite (ok_line (quoted "size" ++ ":0"))])
   /\ ~ rejected memory put_without_data [])
  /\ (recognized (json_get get_size_without_tag "cmd") = true
      /\ spec_missing_field get_size_without_tag = true
      /\ iteration memory get_size_without_tag []
         = (Next, [],
            [EvCall (CallTag ""); EvCall (CallGetBlobSize "" "b");
             EvWrite (ok_line (quoted "size" ++ ":0"))])
      /\ ~ rejected memory get_size_without_tag []).
Proof.
  repeat split; try reflexivity;
    intros [message H]; vm_compute in H; discriminate H.
Qed.

(** *** A blob that is not there *)

Lemma get_of_empty_blob_is_an_error_witness :
  iteration memory get_request []
  = (Next, [],
     [EvCall (CallTag "t1"); EvCall (CallGetBlobSize "t1" "b1");
      EvWrite (error_line "blob not found or empty")]).
Proof.
  apply (proj1 (get_of_empty_blob_is_an_error memory get_request [] [] []
                  "t1" eq_refl eq_refl
                  ltac:(discriminate) ltac:(discriminate) eq_refl eq_refl)).
Defined.

(** *** Failures of the engine *)

Lemma engine_failure_becomes_error_witness :
  exists calls c,
    iteration (failing (Returned true) boom) put_request tt
    = (Next, tt,
       (map EvCall calls
          ++ [EvCall c; EvThrow boom;
              EvWrite (error_line "exception: boom")])%list).
Proof.
  destruct (engine_failure_becomes_error (failing (Returned true) boom)
              put_request [] tt boom)
    as (st' & calls & c & Hiter & _).
  - vm_compute. right; left; reflexivity.
  - destruct st'. exists calls, c. exact Hiter.
Defined.

(** *** Unknown commands *)

Lemma unknown_command_is_reported_witness :
  iteration memory bogus_request []
  = (Next, [],
     [EvWrite ("{" ++ quoted "status" ++ ":" ++ quoted "error" ++ ","
                   ++ quoted "message" ++ ":"
                   ++ quoted "unknown command: bogus" ++ "}")]).
Proof.
  exact (proj1 (unknown_command_is_reported memory bogus_request [] []
                  eq_refl eq_refl)).
Defined.

(** *** Hex data that is no hex *)

(** A character without a value counts for nothing in either place of a
    pair. *)
Lemma from_hex_not_digit (c h : ascii) (rest : string) :
  hex_digit c = false ->
  from_hex (String c (String h rest)) = to_char (nibble h) :: from_hex rest
  /\ from_hex (String h (String c rest))
     = to_char (Z.shiftl (nibble h) 4) :: from_hex rest.
Proof.
  intros Hc. cbn [from_hex]. rewrite (nibble_not_digit c Hc).
  now rewrite Z.shiftl_0_l, Z.lor_0_l, Z.lor_0_r.
Qed.

(** C9. Decoding never fails: every string decodes, to half as many bytes
    as it has characters; a character [c] that is no hex digit counts as the
    nibble 0 in either place of a pair, so that [cc] decodes to the byte 0;
    and a [put] line whose data starts with such a pair is answered by an ok
    response, the decoded bytes having been stored. *)
Theorem from_hex_never_fails (F : Facade) (line : string)
  (st st1 st2 : backend F) (tag : Tag F) (c : ascii) (s : string) :
  let tag_name := json_get line "tag" in
  let blob_name := json_get line "blob" in
  let stored := (zero :: from_hex s)%list in
  hex_digit c = false ->
  skipped line = false ->
  json_get line "cmd" = "put" ->
  tag_name <> "" -> blob_name <> "" ->
  json_get line "data" = String c (String c s) ->
  NewTag F tag_name st = (Returned tag, st1) ->
  PutBlob F tag blob_name stored st1 = (Returned tt, st2) ->
  nibble c = 0%Z
  /\ (forall hex, List.length (from_hex hex) = Nat.div2 (length hex))
  /\ (forall h rest,
        from_hex (String c (String h rest))
        = to_char (nibble h) :: from_hex rest
        /\ from_hex (String h (String c rest))
           = to_char (Z.shiftl (nibble h) 4) :: from_hex rest)
  /\ from_hex (String c (String c s)) = stored
  /\ iteration F line st
     = (Next, st2,
        [EvCall (CallTag tag_name);
         EvCall (CallPutBlob tag_name blob_name stored);
         EvWrite (ok_line (quoted "size" ++ ":"
                           ++ to_string (size_of stored)))]).
Proof.
  intros tag_name blob_name stored Hc Hskip Hcmd Htag Hblob Hdata Hnew Hput.
  assert (Hdec : from_hex (String c (String c s)) = stored).
  { cbn [from_hex]. now rewrite (nibble_not_digit c Hc). }
  split; [now apply nibble_not_digit|].
  split; [exact from_hex_length|].
  split; [intros h rest; now apply from_hex_not_digit|].
  split; [exact Hdec|].
  rewrite <- Hdec, <- Hdata. rewrite <- Hdec, <- Hdata in Hput.
  now apply put_stores_decoded with (tag := tag) (st1 := st1).
Qed.

Lemma from_hex_never_fails_witness :
  hex_digit "z" = false
  /\ from_hex "zz" = [zero]
  /\ iteration memory put_zz []
     = (Next, [("t", "b", [zero])],
        [EvCall (CallTag "t"); EvCall (CallPutBlob "t" "b" [zero]);
         EvWrite (ok_line (quoted "size" ++ ":1"))]).
Proof.
  split; [reflexivity|].
  destruct (from_hex_never_fails memory put_zz [] [] [("t", "b", [zero])]
              "t" "z" "" eq_refl eq_refl eq_refl
              ltac:(discriminate) ltac:(discriminate)
              eq_refl eq_refl eq_refl)
    as (_ & _ & _ & Hdec & Hiter).
  split; [exact Hdec | exact Hiter].
Defined.

(** *** The exit code *)

(** How [main] ends, by the way the initialisation of the engine ends. When
    it returns [true] the exit code is 0 however the loop ends; when it
    returns [false] or throws a [std::exception] the exit code is 1, after a
    single error response and before any line is read; when it throws
    anything else, no clause catches it. *)
Lemma main_by_initialisation (F : Facade) (stdin : list string)
  (st : backend F) :
  match WRP_CTE_CLIENT_INIT F st with
  | (Returned true, _) => fst (fst (main F stdin st)) = Exit 0
  | (Returned false, st') =>
      main F stdin st
      = (Exit 1, st',
         [EvCall CallInit; EvWrite (error_line "WRP_CTE_CLIENT_INIT failed")])
  | (Thrown (StdException what), st') =>
      main F stdin st
      = (Exit 1, st',
         [EvCall CallInit; EvThrow (StdException what);
          EvWrite (error_line ("Init exception: " ++ what))])
  | (Thrown OtherException, st') =>
      main F stdin st
      = (Terminate, st', [EvCall CallInit; EvThrow OtherException])
  end.
Proof.
  unfold main, invoke.
  destruct (WRP_CTE_CLIENT_INIT F st) as [[[|]|[what|]] st']; try reflexivity.
  destruct (init_info F st') as [[info st1] tr1].
  now destruct (loop F stdin st1).
Qed.

(** C8 fails on the code. When the initialisation throws an object that is
    no [std::exception], the only clause of the first [try] block does not
    catch it: the process ends in [std::terminate], having written no error
    response and without the exit code 1. *)
Theorem init_other_exception_leaves_main (stdin : list string) :
  main (failing (Thrown OtherException) boom) stdin tt
  = (Terminate, tt, [EvCall CallInit; EvThrow OtherException]).
Proof. reflexivity. Qed.

End DispatcherFacts.

(** * Further properties *)

(** ** Hex codec: lengths, case and canonical form *)

Module HexLaws.
Import Hex Spec Terms HexFacts StringFacts.

(** Strings two characters at a time. *)
Lemma pairs_ind (P : string -> Prop) :
  P "" -> (forall c, P (str1 c)) ->
  (forall c0 c1 rest, P rest -> P (String c0 (String c1 rest))) ->
  forall s, P s.
Proof.
  intros Hnil Hone Hpair.
  fix IH 1. intros [|c0 [|c1 rest]].
  - exact Hnil.
  - apply Hone.
  - apply Hpair, IH.
Qed.

(** X1. Decoding goes through a concatenation cut at an even position: the
    bytes of [a ++ b] are those of [a] followed by those of [b]. *)
Theorem from_hex_app (a b : string) :
  Nat.even (length a) = true ->
  from_hex (a ++ b) = (from_hex a ++ from_hex b)%list.
Proof.
  induction a as [| c | c0 c1 rest IH] using pairs_ind; intros Heven.
  - reflexivity.
  - discriminate Heven.
  - cbn [append from_hex app]. now rewrite IH.
Qed.

Lemma from_hex_app_witness :
  from_hex ("4869" ++ "21") = (from_hex "4869" ++ from_hex "21")%list.
Proof. apply (from_hex_app "4869" "21"). reflexivity. Defined.

(** X2. A character left alone at the end of the input is dropped: a string of
    odd length decodes as the string without its last character. *)
Theorem from_hex_drops_unpaired (s : string) (c : ascii) :
  Nat.even (length s) = true ->
  from_hex (s ++ str1 c) = from_hex s.
Proof.
  induction s as [| d | c0 c1 rest IH] using pairs_ind; intros Heven.
  - reflexivity.
  - discriminate Heven.
  - cbn [append from_hex]. now rewrite IH.
Qed.

Lemma from_hex_drops_unpaired_witness :
  from_hex ("4869" ++ str1 "f") = from_hex "4869".
Proof. apply (from_hex_drops_unpaired "4869" "f"). reflexivity. Defined.

Lemma nibble_to_lower (c : ascii) : nibble (to_lower c) = nibble c.
Proof. each_char c; reflexivity. Qed.

(** X3. Decoding does not look at the case of the letters: a string and its
    lower case decode to the same bytes. *)
Theorem from_hex_ignores_case (s : string) :
  from_hex (map_chars to_lower s) = from_hex s.
Proof.
  induction s as [| c | c0 c1 rest IH] using pairs_ind; try reflexivity.
  cbn [map_chars from_hex]. now rewrite !nibble_to_lower, IH.
Qed.

(** The two digits written for the byte decoded from two hex digits. *)
Lemma encode_pair (h0 h1 : ascii) :
  hex_digit h0 = true -> hex_digit h1 = true ->
  let d := to_char (Z.lor (Z.shiftl (nibble h0) 4) (nibble h1)) in
  hex_at (Z.shiftr (code d) 4) = to_lower h0
  /\ hex_at (Z.land (code d) 15) = to_lower h1.
Proof.
  each_char h0; intros H0; try discriminate H0;
    each_char h1; intros H1; try discriminate H1; split; reflexivity.
Qed.

Lemma to_hex_of_decoded (s : string) :
  Nat.even (length s) = true ->
  all_chars hex_digit s = true ->
  to_hex (from_hex s) = map_chars to_lower s.
Proof.
  induction s as [| c | c0 c1 rest IH] using pairs_ind; intros Heven Hdigits.
  - reflexivity.
  - discriminate Heven.
  - cbn [all_chars] in Hdigits.
    apply andb_prop in Hdigits as [H0 Hdigits].
    apply andb_prop in Hdigits as [H1 Hdigits].
    cbn [from_hex to_hex map_chars].
    destruct (encode_pair c0 c1 H0 H1) as [-> ->].
    now rewrite IH.
Qed.

(** X4. Encoding what was decoded from hex digits gives the lower case of the
    input back, when its length is even: decoding loses nothing but the case
    of the letters. *)
Theorem to_hex_from_hex (s : string) :
  Nat.even (length s) = true ->
  all_chars hex_digit s = true ->
  to_hex (from_hex s) = map_chars to_lower s.
Proof. exact (to_hex_of_decoded s). Qed.

Lemma to_hex_from_hex_witness :
  to_hex (from_hex "48656C6c6F") = "48656c6c6f".
Proof. apply (to_hex_from_hex "48656C6c6F"); reflexivity. Defined.

End HexLaws.

(** ** Field extractor: absent keys, bare tokens, open strings *)

Module JsonLaws.
Import Json Spec Terms StringFacts JsonFacts.

Lemma prefix_split (s t : string) :
  prefix s t = true -> exists post, t = s ++ post.
Proof.
  revert t. induction s as [|a s IH]; intros t H.
  - now exists t.
  - destruct t as [|b t]; [discriminate H|].
    cbn [prefix] in H. destruct (ascii_dec a b) as [<-|]; [|discriminate H].
    destruct (IH t H) as [post ->]. now exists post.
Qed.

(** Where [index] finds [s], [s] is. *)
Lemma index_split (s json : string) :
  forall n m, index n s json = Some m ->
  exists pre post, json = pre ++ s ++ post /\ length pre = m.
Proof.
  induction json as [|b json IH]; intros n m H.
  - destruct n, s; try discriminate H.
    injection H as <-. now exists "", "".
  - destruct n as [|n]; cbn [index] in H.
    + destruct (prefix s (String b json)) eqn:Hp.
      * injection H as <-. destruct (prefix_split _ _ Hp) as [post ->].
        now exists "", post.
      * destruct (index 0 s json) as [k|] eqn:Hk; [|discriminate H].
        injection H as <-. destruct (IH _ _ Hk) as (pre & post & -> & <-).
        now exists (String b pre), post.
    + destruct (index n s json) as [k|] eqn:Hk; [|discriminate H].
      injection H as <-. destruct (IH _ _ Hk) as (pre & post & -> & <-).
      now exists (String b pre), post.
Qed.

(** X5. The extractor answers with a non-empty value only for a key that is
    in the line: the key between double quotes, directly followed by a colon,
    stands somewhere in it. A key that is absent, or written with a blank
    before its colon, gives the empty result. *)
Theorem json_get_needs_key (json key : string) :
  json_get json key <> "" ->
  exists pre post, json = pre ++ quoted key ++ ":" ++ post.
Proof.
  intros H. unfold json_get in H.
  destruct (index 0 (search_of key) json) as [found|] eqn:Hfound;
    [|now contradiction H].
  destruct (index_split _ _ _ _ Hfound) as (pre & post & -> & _).
  exists pre, post. unfold search_of, quoted, str1. cbn [append].
  now rewrite !append_assoc.
Qed.

Lemma json_get_needs_key_witness :
  exists pre post,
    "{" ++ quoted "cmd" ++ ":" ++ quoted "ping" ++ "}"
    = pre ++ quoted "cmd" ++ ":" ++ post.
Proof.
  apply (json_get_needs_key
           ("{" ++ quoted "cmd" ++ ":" ++ quoted "ping" ++ "}") "cmd").
  vm_compute. discriminate.
Defined.

(** The blanks behind position [length a] are skipped up to what follows
    them, the end of the line included. *)
Lemma skip_blanks_stop (ws : string) :
  forall (a tail : string) (fuel : nat),
    all_chars blank ws = true ->
    match tail with
    | EmptyString => True
    | String c _ => blank c = false
    end ->
    length ws + length tail <= fuel ->
    skip_blanks fuel (a ++ ws ++ tail) (length a) = length a + length ws.
Proof.
  induction ws as [|w ws IH]; intros a tail fuel Hws Htail Hfuel.
  - cbn [append length]. rewrite Nat.add_0_r.
    destruct tail as [|c b].
    + destruct fuel; cbn [skip_blanks]; [reflexivity|].
      rewrite append_nil_r.
      replace (get (length a) a) with (@None ascii); [reflexivity|].
      clear. induction a as [|x a IHa]; [reflexivity | exact IHa].
    + destruct fuel as [|fuel]; [cbn in Hfuel; lia|].
      cbn [skip_blanks]. rewrite get_here.
      unfold blank in Htail. now rewrite Htail.
  - destruct fuel as [|fuel]; [cbn in Hfuel; lia|].
    cbn [all_chars] in Hws. apply andb_prop in Hws as [Hw Hws].
    cbn [append skip_blanks length]. rewrite get_here.
    unfold blank in Hw. rewrite Hw.
    replace (a ++ String w (ws ++ tail)) with ((a ++ str1 w) ++ ws ++ tail)
      by (now rewrite append_assoc).
    replace (S (length a)) with (length (a ++ str1 w))
      by (rewrite length_append; simpl; lia).
    rewrite IH; try assumption.
    + rewrite length_append. simpl. lia.
    + cbn [length] in Hfuel. lia.
Qed.

Lemma index_no_quote (v : string) :
  all_chars not_dquote v = true -> index 0 (str1 dquote) v = None.
Proof.
  induction v as [|c v IH]; intros Hv; [reflexivity|].
  cbn [all_chars] in Hv. apply andb_prop in Hv as [Hc Hv].
  unfold str1 in *. cbn [index prefix].
  unfold not_dquote in Hc. apply negb_true_iff in Hc.
  destruct (ascii_dec dquote c) as [E|_].
  - subst c. now rewrite Ascii.eqb_refl in Hc.
  - now rewrite (IH Hv).
Qed.

(** X6. A value that opens with a double quote and is never closed gives the
    empty result, whatever was typed behind the opening quote. *)
Theorem json_get_open_string (pre key ws v : string) :
  let line := pre ++ search_of key ++ ws ++ String dquote v in
  index 0 (search_of key) line = Some (length pre) ->
  all_chars blank ws = true ->
  all_chars not_dquote v = true ->
  json_get line key = "".
Proof.
  intros line Hfound Hws Hv. unfold json_get. rewrite Hfound.
  set (head := (pre ++ search_of key) ++ ws).
  assert (Hline : line = head ++ String dquote v).
  { unfold line, head. now rewrite !append_assoc. }
  assert (Hskip : skip_blanks (length line) line
                    (length pre + length (search_of key)) = length head).
  { rewrite <- length_append. unfold line, head.
    rewrite <- (append_assoc pre).
    rewrite skip_blanks_stop; try assumption; try reflexivity.
    - now rewrite <- length_append.
    - rewrite !length_append. lia. }
  rewrite Hskip.
  assert (Hlen : (length line <=? length head)%nat = false).
  { apply Nat.leb_gt. rewrite Hline, length_append. simpl. lia. }
  rewrite Hlen, Hline, get_here.
  change (Ascii.eqb dquote dquote) with true. cbv iota.
  replace (head ++ String dquote v) with ((head ++ str1 dquote) ++ v)
    by (now rewrite append_assoc).
  replace (S (length head)) with (length (head ++ str1 dquote) + 0)
    by (rewrite length_append; simpl; lia).
  now rewrite index_append_r, (index_no_quote v Hv).
Qed.

Lemma json_get_open_string_witness :
  json_get ("{" ++ search_of "tag" ++ " " ++ String dquote "t1, 2}") "tag"
  = "".
Proof.
  apply (json_get_open_string "{" "tag" " " "t1, 2}"); reflexivity.
Defined.

Lemma find_first_of_append_r (chars : list ascii) (a b : string) (n : nat) :
  find_first_of chars (length a + n) (a ++ b)
  = option_map (Nat.add (length a)) (find_first_of chars n b).
Proof.
  induction a as [|x a IH]; cbn [append length Nat.add find_first_of].
  - now destruct (find_first_of chars n b).
  - rewrite IH. now destruct (find_first_of chars n b).
Qed.

(** The first terminator of [tok ++ rest] is the one that starts [rest]. *)
Lemma find_first_of_token (tok rest : string) :
  all_chars plain tok = true -> ends_token rest = true ->
  find_first_of [","%char; "}"%char; "]"%char] 0 (tok ++ rest)
  = if empty rest then None else Some (length tok).
Proof.
  intros Htok Hrest. induction tok as [|c tok IH].
  - destruct rest as [|c rest]; [reflexivity|].
    cbn [append find_first_of empty length]. cbn [ends_token] in Hrest.
    unfold terminator, char_in in Hrest.
    cbn [list_ascii_of_string] in Hrest. now rewrite Hrest.
  - cbn [all_chars] in Htok. apply andb_prop in Htok as [Hc Htok].
    cbn [append find_first_of length].
    unfold plain, terminator, char_in in Hc.
    cbn [list_ascii_of_string] in Hc. apply negb_true_iff in Hc.
    rewrite Hc, (IH Htok). now destruct (empty rest).
Qed.

Lemma terminator_not_opening (c : ascii) :
  terminator c = true -> blank c = false /\ Ascii.eqb c dquote = false.
Proof.
  unfold terminator, char_in, blank. cbn [list_ascii_of_string existsb].
  intros H.
  repeat (apply orb_prop in H as [H|H];
          [apply Ascii.eqb_eq in H; subst c; split; reflexivity|]).
  discriminate H.
Qed.

(** X7. A value that is not a quoted string is read as a bare token: it runs
    from behind the blanks that follow the colon to the first comma, closing
    brace or closing bracket, or to the end of the line when there is none,
    and it is returned without the spaces and newlines at its end. *)
Theorem json_get_bare_token (pre key ws tok rest : string) :
  let line := pre ++ search_of key ++ ws ++ tok ++ rest in
  index 0 (search_of key) line = Some (length pre) ->
  all_chars blank ws = true ->
  starts_token tok = true ->
  all_chars plain tok = true ->
  ends_token rest = true ->
  json_get line key = trim_back tok.
Proof.
  intros line Hfound Hws Hstart Htok Hrest. unfold json_get. rewrite Hfound.
  set (head := (pre ++ search_of key) ++ ws).
  assert (Hline : line = head ++ tok ++ rest).
  { unfold line, head. now rewrite !append_assoc. }
  assert (Hopen : match tok ++ rest with
                  | EmptyString => True
                  | String c _ => blank c = false /\ Ascii.eqb c dquote = false
                  end).
  { destruct tok as [|c tok]; cbn [append].
    - destruct rest as [|c rest]; [exact I|].
      now apply terminator_not_opening.
    - cbn [starts_token] in Hstart. apply andb_prop in Hstart as [Hb Hq].
      unfold not_dquote in Hq. now rewrite negb_true_iff in Hb, Hq. }
  assert (Hskip : skip_blanks (length line) line
                    (length pre + length (search_of key)) = length head).
  { rewrite <- length_append. unfold line, head.
    rewrite <- (append_assoc pre).
    rewrite skip_blanks_stop; try assumption.
    - now rewrite <- length_append.
    - destruct (tok ++ rest); [exact I | apply Hopen].
    - rewrite !length_append. lia. }
  rewrite Hskip, Hline.
  destruct (tok ++ rest) as [|c tail] eqn:Hvalue.
  - rewrite append_nil_r, Nat.leb_refl.
    destruct tok; [reflexivity | discriminate Hvalue].
  - assert (Hlen : (length (head ++ String c tail) <=? length head)%nat
                   = false).
    { apply Nat.leb_gt. rewrite length_append. simpl. lia. }
    rewrite Hlen, get_here. destruct Hopen as [_ ->].
    rewrite <- Hvalue.
    assert (Hfind :
              find_first_of [","%char; "}"%char; "]"%char] (length head)
                (head ++ tok ++ rest)
              = if empty rest then None else Some (length head + length tok)).
    { rewrite <- (Nat.add_0_r (length head)) at 1.
      rewrite find_first_of_append_r, (find_first_of_token tok rest Htok Hrest).
      now destruct (empty rest). }
    rewrite Hfind.
    assert (Hcut : forall end_, end_ = length head + length tok ->
              trim_back (substring (length head) (end_ - length head)
                           (head ++ tok ++ rest))
              = trim_back tok).
    { intros end_ ->.
      replace (length head + length tok - length head)
        with (length tok) by lia.
      rewrite <- (Nat.add_0_r (length head)).
      now rewrite substring_append_r, substring_prefix. }
    destruct rest as [|r rest]; cbn [empty]; apply Hcut.
    + now rewrite length_append, append_nil_r.
    + reflexivity.
Qed.

Lemma json_get_bare_token_witness :
  json_get ("{" ++ search_of "size" ++ " " ++ "42  " ++ ", x}") "size"
  = "42".
Proof.
  apply (json_get_bare_token "{" "size" " " "42  " ", x}"); reflexivity.
Defined.

(** X8. Trimming removes exactly the spaces and newlines at the end of the
    value: what is cut off consists of spaces and newlines only, and what is
    kept does not end with one. Tabs and carriage returns are kept. *)
Theorem trim_back_cuts_the_end (val : string) :
  (exists tail,
      val = trim_back val ++ tail /\ all_chars trimmed tail = true)
  /\ (forall body c, trim_back val <> body ++ str1 c \/ trimmed c = false).
Proof.
  split.
  - induction val as [|x val (tail & Hval & Htail)]; [now exists ""|].
    cbn [trim_back]. fold (trimmed x).
    destruct (trim_back val) as [|k kept] eqn:Hkept.
    + cbn [append] in Hval. subst tail.
      destruct (trimmed x) eqn:Hx.
      * exists (String x val). cbn [append all_chars]. now rewrite Hx.
      * now exists val.
    + exists tail. cbn [append] in *. now rewrite <- Hval.
  - induction val as [|x val IH]; intros body c.
    + left. destruct body; discriminate.
    + cbn [trim_back]. fold (trimmed x).
      destruct (trim_back val) as [|k kept] eqn:Hkept.
      * destruct (trimmed x) eqn:Hx.
        -- left. destruct body; discriminate.
        -- destruct body as [|y [|z body]]; cbn [append str1];
             try (left; discriminate).
           destruct (ascii_dec x c) as [<-|Hne]; [now right|].
           left. intros E. now injection E.
      * destruct body as [|y body].
        -- left. discriminate.
        -- destruct (IH body c) as [Hne|Hc]; [|now right].
           left. cbn [append]. intros E. injection E as _ E. now rewrite E in Hne.
Qed.

End JsonLaws.

(** ** Response encoder: size, line integrity, injectivity, arrays *)

Module EncoderLaws.
Import Encoder Spec Terms StringFacts EncoderFacts.

Lemma all_chars_append (p : ascii -> bool) (a b : string) :
  all_chars p (a ++ b) = all_chars p a && all_chars p b.
Proof.
  induction a as [|c a IH]; [reflexivity|].
  cbn [append all_chars]. now rewrite IH, andb_assoc.
Qed.

Ltac by_escape_cases c :=
  unfold escape_char;
  destruct (Ascii.eqb_spec c dquote); [subst c|];
  [|destruct (Ascii.eqb_spec c backslash); [subst c|];
    [|destruct (Ascii.eqb_spec c newline); [subst c|];
      [|destruct (Ascii.eqb_spec c tab); [subst c|]]]].

Lemma escape_char_length (c : ascii) :
  1 <= length (escape_char c) <= 2.
Proof. by_escape_cases c; cbn; lia. Qed.

(** X9. Escaping never shortens a message and at most doubles it. *)
Theorem escape_json_length (s : string) :
  length s <= length (escape_json s) <= 2 * length s.
Proof.
  induction s as [|c s IH]; [cbn; lia|].
  rewrite escape_json_cons, length_append. cbn [length].
  pose proof (escape_char_length c). lia.
Qed.

Lemma escape_char_not_newline_tab (c : ascii) :
  all_chars not_newline_tab (escape_char c) = true.
Proof.
  by_escape_cases c; try reflexivity.
  cbn [all_chars str1]. unfold not_newline_tab.
  destruct (Ascii.eqb_spec c newline); [contradiction|].
  destruct (Ascii.eqb_spec c tab); [contradiction|]. reflexivity.
Qed.

(** X10. An escaped message holds no newline and no tab, whatever the message
    is: written between its quotes it stays on the line of its response. *)
Theorem escape_json_stays_on_line (s : string) :
  all_chars not_newline_tab (escape_json s) = true.
Proof.
  induction s as [|c s IH]; [reflexivity|].
  now rewrite escape_json_cons, all_chars_append,
    escape_char_not_newline_tab, IH.
Qed.

Lemma all_chars_weaken (p q : ascii -> bool) (s : string) :
  (forall c, p c = true -> q c = true) ->
  all_chars p s = true -> all_chars q s = true.
Proof.
  intros Hpq. induction s as [|c s IH]; [reflexivity|].
  cbn [all_chars]. intros H. apply andb_prop in H as [Hc Hs].
  now rewrite (Hpq c Hc), (IH Hs).
Qed.

(** The text written for a character tells which character it was, and where
    it ends. *)
Lemma escape_char_unique (c d : ascii) (a b : string) :
  escape_char c ++ a = escape_char d ++ b -> c = d /\ a = b.
Proof.
  by_escape_cases c; by_escape_cases d; cbn [append str1];
    intros E; injection E; intros; subst;
    first [ now split | contradiction | discriminate
          | exfalso; congruence ].
Qed.

(** X11. Escaping loses nothing: two messages with the same escaped text are
    the same message. *)
Theorem escape_json_injective (a b : string) :
  escape_json a = escape_json b -> a = b.
Proof.
  revert b. induction a as [|c a IH]; intros [|d b] E.
  - reflexivity.
  - rewrite escape_json_cons in E. exfalso.
    pose proof (escape_char_length d) as Hd.
    apply (f_equal length) in E. rewrite length_append in E. cbn in E. lia.
  - rewrite escape_json_cons in E. exfalso.
    pose proof (escape_char_length c) as Hc.
    apply (f_equal length) in E. rewrite length_append in E. cbn in E. lia.
  - rewrite !escape_json_cons in E.
    apply escape_char_unique in E as [-> E]. now rewrite (IH b E).
Qed.

Lemma escape_json_injective_witness :
  String backslash "n" = String backslash "n".
Proof.
  apply (escape_json_injective (String backslash "n") (String backslash "n")).
  reflexivity.
Defined.

Lemma join_names_later (names : list string) (i : nat) :
  join_names (S i) names
  = match names with
    | [] => ""
    | _ => "," ++ concat "," (map element names)
    end.
Proof.
  revert i. induction names as [|name rest IH]; intros i; [reflexivity|].
  cbn [join_names Nat.ltb Nat.leb map]. rewrite IH. fold (element name).
  destruct rest as [|next rest]; cbn [map concat append].
  - now rewrite append_nil_r.
  - reflexivity.
Qed.

(** X12. The arrays of the responses (targets, blobs, tags) list the names in
    the order the engine gave them, each escaped and between double quotes,
    with a comma between two names and none at either end. *)
Theorem join_names_is_concat (names : list string) :
  join_names 0 names = concat "," (map element names).
Proof.
  destruct names as [|name rest]; [reflexivity|].
  cbn [join_names Nat.ltb Nat.leb map append]. rewrite join_names_later.
  fold (element name).
  destruct rest as [|next rest]; cbn [map concat append].
  - now rewrite append_nil_r.
  - reflexivity.
Qed.

End EncoderLaws.

(** ** Dispatcher: what is written, what is read, how runs compose *)

Module ProtocolLaws.
Import Hex Json Encoder Dispatcher Engines Spec Terms.
Import StringFacts HexFacts EncoderFacts DispatcherFacts HexLaws EncoderLaws.

Lemma writes_app (a b : list event) :
  writes (a ++ b) = (writes a ++ writes b)%list.
Proof. apply flat_map_app. Qed.

(** *** A property of every line a piece of code writes *)

Section Written.

Variable F : Facade.
Variable P : string -> Prop.

Lemma writes_only_ret {A} (a : A) : writes_only F P (ret F a).
Proof. intros st. constructor. Qed.

Lemma writes_only_invoke {A} (c : call)
  (op : backend F -> outcome A * backend F) :
  writes_only F P (invoke F c op).
Proof.
  intros st. unfold invoke. destruct (op st) as [[a|e] st']; constructor.
Qed.

Lemma writes_only_respond (w : string) :
  P w -> writes_only F P (respond F w).
Proof. intros H st. now repeat constructor. Qed.

Lemma writes_only_bind {A B} (m : M F A) (k : A -> M F B) :
  writes_only F P m -> (forall a, writes_only F P (k a)) ->
  writes_only F P (bind F m k).
Proof.
  intros Hm Hk st. unfold bind. specialize (Hm st).
  destruct (m st) as [[[a|e] st'] tr]; cbn [snd] in *; [|exact Hm].
  specialize (Hk a st'). destruct (k a st') as [[r st''] tr'].
  cbn [snd] in *. rewrite writes_app. now apply Forall_app.
Qed.

End Written.

Ltac walk :=
  repeat first
    [ apply writes_only_ret
    | apply writes_only_invoke
    | apply writes_only_bind; [|intros ?]
    | match goal with
      | |- writes_only _ _ (if ?b then _ else _) => destruct b
      end
    | progress cbv zeta
    | apply writes_only_respond ].

(** *** Lines without a newline *)

Lemma digits_one_line (d : Decimal.uint) :
  all_chars not_newline (NilEmpty.string_of_uint d) = true.
Proof. induction d; cbn; assumption || reflexivity. Qed.

Lemma to_string_one_line (n : N) :
  all_chars not_newline (to_string n) = true.
Proof.
  unfold to_string, NilZero.string_of_uint.
  destruct (N.to_uint n); try reflexivity; apply digits_one_line.
Qed.

Lemma to_hex_one_line (data : list ascii) :
  all_chars not_newline (to_hex data) = true.
Proof.
  induction data as [|d rest IH]; [reflexivity|].
  cbn [to_hex all_chars]. rewrite IH.
  destruct d as [[] [] [] [] [] [] [] []]; reflexivity.
Qed.

Lemma escape_json_one_line (s : string) :
  all_chars not_newline (escape_json s) = true.
Proof.
  induction s as [|c s IH]; [reflexivity|].
  rewrite escape_json_cons, all_chars_append, IH, andb_true_r.
  apply (all_chars_weaken not_newline_tab);
    [|apply escape_char_not_newline_tab].
  intros x H. unfold not_newline_tab in H. now apply andb_prop in H.
Qed.

Lemma quoted_one_line (s : string) :
  all_chars not_newline (quoted s) = all_chars not_newline s.
Proof.
  unfold quoted. cbn [all_chars]. rewrite all_chars_append.
  cbn. now rewrite andb_true_r.
Qed.

Lemma join_names_one_line (names : list string) (i : nat) :
  all_chars not_newline (join_names i names) = true.
Proof.
  revert i. induction names as [|name rest IH]; intros i; [reflexivity|].
  cbn [join_names]. rewrite !all_chars_append, quoted_one_line.
  rewrite escape_json_one_line, IH. now destruct (Nat.ltb 0 i).
Qed.

Lemma ok_line_one_line (extra : string) :
  all_chars not_newline extra = true ->
  all_chars not_newline (ok_line extra) = true.
Proof.
  intros H. unfold ok_line. destruct (empty extra); [reflexivity|].
  rewrite !all_chars_append, !quoted_one_line, H. reflexivity.
Qed.

Lemma error_line_one_line (msg : string) :
  all_chars not_newline (error_line msg) = true.
Proof.
  unfold error_line. rewrite !all_chars_append, !quoted_one_line.
  cbn [all_chars]. rewrite ?all_chars_append, escape_json_one_line.
  reflexivity.
Qed.

Ltac one_line :=
  cbv beta;
  lazymatch goal with
  | |- all_chars _ (error_line _) = true => apply error_line_one_line
  | |- all_chars _ (ok_line _) = true =>
      apply ok_line_one_line;
      repeat rewrite all_chars_append;
      rewrite ?quoted_one_line, ?to_string_one_line, ?to_hex_one_line,
        ?join_names_one_line, ?escape_json_one_line;
      reflexivity
  end.

Section WithFacade.

Variable F : Facade.

Lemma handle_responses (line cmd : string) :
  writes_only F is_response (handle F line cmd).
Proof.
  unfold handle. walk;
    first [ left; eexists; reflexivity | right; eexists; reflexivity ].
Qed.

Lemma handle_one_line (line cmd : string) :
  writes_only F (fun w => all_chars not_newline w = true) (handle F line cmd).
Proof. unfold handle. walk; one_line. Qed.

(** From the handlers to the loop. *)
Section Lifted.

Variable P : string -> Prop.
Hypothesis P_handle : forall line cmd, writes_only F P (handle F line cmd).
Hypothesis P_error : forall msg, P (error_line msg).

Lemma iteration_writes (line : string) (st : backend F) :
  Forall P (writes (snd (iteration F line st))).
Proof.
  unfold iteration. destruct (skipped line); [cbn; constructor|].
  pose proof (P_handle line (json_get line "cmd") st) as H.
  destruct (handle F line (json_get line "cmd") st) as [[[f|e] st'] tr];
    cbn [snd] in *; [exact H|].
  rewrite writes_app. apply Forall_app. split; [exact H|].
  repeat constructor. apply P_error.
Qed.

Lemma loop_writes (lines : list string) (st : backend F) :
  Forall P (writes (snd (loop F lines st))).
Proof.
  revert st. induction lines as [|line rest IH]; intros st; [constructor|].
  cbn [loop]. pose proof (iteration_writes line st) as Hline.
  destruct (iteration F line st) as [[[|] st'] tr]; cbn [snd] in *.
  - specialize (IH st'). destruct (loop F rest st') as [st'' tr'].
    cbn [snd] in *.
    change (writes (EvRead line :: tr ++ tr'))%list
      with (writes (tr ++ tr'))%list.
    rewrite writes_app. apply Forall_app. now split.
  - exact Hline.
Qed.

End Lifted.

(** X13. Every line the processing loop writes is an ok response or an error
    response: after the readiness record nothing else reaches the output. *)
Theorem loop_writes_responses (lines : list string) (st : backend F) :
  Forall is_response (writes (snd (loop F lines st))).
Proof.
  apply loop_writes; [exact handle_responses|].
  intros msg. right. now exists msg.
Qed.

(** X14. No line the process writes holds a newline character: whatever the
    requests, the names, the sizes, the blobs and the failure descriptions of
    the engine are, each response (and the readiness record) is one line of
    the output. *)
Theorem main_writes_single_lines (stdin : list string) (st : backend F) :
  Forall (fun w => all_chars not_newline w = true)
    (writes (snd (main F stdin st))).
Proof.
  unfold main, invoke.
  destruct (WRP_CTE_CLIENT_INIT F st) as [[[|]|[what|]] st']; cbn [snd].
  - unfold init_info, invoke.
    pose proof (fun st => loop_writes _ handle_one_line error_line_one_line
                            stdin st) as Hloop.
    destruct (ListTargets F st') as [[targets|[what|]] st1];
      specialize (Hloop st1); destruct (loop F stdin st1) as [st2 tr2];
      cbn [snd app writes flat_map] in *;
      (constructor; [|exact Hloop]);
      repeat rewrite all_chars_append;
      rewrite ?quoted_one_line, ?to_string_one_line, ?join_names_one_line,
        ?escape_json_one_line; reflexivity.
  - cbn [writes flat_map app]. constructor; [|constructor].
    apply error_line_one_line.
  - cbn [writes flat_map app]. constructor; [|constructor].
    apply error_line_one_line.
  - constructor.
Qed.

(** *** The end of the loop *)

Lemma reads_io (tr : list event) : reads (io tr) = reads tr.
Proof.
  induction tr as [|[line|w|c|e] tr IH]; [reflexivity| | | |];
    cbn [io filter is_io reads flat_map app]; fold (io tr); fold (reads tr);
    fold (reads (io tr)); now rewrite ?IH.
Qed.

Lemma framed_reads (lines : list string) (tr : list event) :
  framed lines tr -> reads tr = lines.
Proof. induction 1; cbn; now f_equal. Qed.

(** X15. Only a [quit] or [exit] line ends the loop: a pass through the loop
    breaks out of it exactly for such a line; no other command, no rejected
    request and no failure of the engine does. *)
Theorem only_quit_ends_the_loop (line : string) (st : backend F) :
  (fst (fst (iteration F line st)) = Break <-> is_quit line = true)
  /\ (fst (fst (iteration F line st)) = Next <-> is_quit line = false).
Proof.
  rewrite iteration_flow.
  destruct (is_quit line); repeat split; intros; congruence.
Qed.

(** X16. The loop reads the input up to its first [quit] or [exit] line and
    no further, or to its end when there is none; the lines it reads and the
    responses it writes interleave one response per request. Lines behind a
    [quit] are never read, so never executed. *)
Theorem loop_reads_to_first_quit (lines : list string) (st : backend F) :
  reads (snd (loop F lines st)) = firstn (consumed lines) lines
  /\ framed (firstn (consumed lines) lines) (io (snd (loop F lines st))).
Proof.
  split; [|apply loop_framed].
  rewrite <- reads_io. apply framed_reads, loop_framed.
Qed.

(** X17. The helper keeps nothing between two requests but the state of the
    engine: running the loop on [a ++ b], when no line of [a] quits, is
    running it on [a] and then on [b] from the state [a] left. *)
Theorem loop_app (a b : list string) (st : backend F) :
  forallb (fun line => negb (is_quit line)) a = true ->
  loop F (a ++ b) st
  = (fst (loop F b (fst (loop F a st))),
     (snd (loop F a st) ++ snd (loop F b (fst (loop F a st))))%list).
Proof.
  revert st. induction a as [|line a IH]; intros st Ha.
  - cbn [app loop fst snd]. now destruct (loop F b st).
  - cbn [forallb] in Ha. apply andb_prop in Ha as [Hline Ha].
    apply negb_true_iff in Hline.
    cbn [app loop]. pose proof (iteration_flow F line st) as Hflow.
    rewrite Hline in Hflow.
    destruct (iteration F line st) as [[f st'] tr]. cbn [fst] in Hflow.
    subst f. rewrite (IH st' Ha).
    destruct (loop F a st') as [st1 tr1]. cbn [fst snd].
    now rewrite app_assoc.
Qed.

(** *** Handlers *)

(** X18. A [tag_query] never hands an empty pattern to the engine: a pattern
    that is absent or empty is replaced by [.*], which matches every tag, and
    any other pattern is passed as it is. The engine is called once. *)
Theorem tag_query_pattern (line : string) (st : backend F) :
  skipped line = false ->
  json_get line "cmd" = "tag_query" ->
  let pattern :=
    if empty (json_get line "pattern") then ".*"
    else json_get line "pattern" in
  calls (snd (iteration F line st)) = [CallTagQuery pattern]
  /\ pattern <> "".
Proof.
  intros Hskip Hcmd pattern. split.
  - unfold iteration, handle. rewrite Hskip, Hcmd.
    cbn [String.eqb Ascii.eqb Bool.eqb]. fold pattern.
    unfold bind, invoke, respond_ok, respond, ret.
    destruct (TagQuery F pattern st) as [[tags|e] st']; reflexivity.
  - unfold pattern. destruct (json_get line "pattern"); discriminate.
Qed.

(** X19. A [put] that the engine accepts is answered with the number of bytes
    stored, which is half the number of characters of the data field, rounded
    down, whatever these characters are. *)
Theorem put_reports_half_length (line : string) (st st1 st2 : backend F)
  (tag : Tag F) :
  let tag_name := json_get line "tag" in
  let blob_name := json_get line "blob" in
  let data := json_get line "data" in
  skipped line = false ->
  json_get line "cmd" = "put" ->
  tag_name <> "" -> blob_name <> "" ->
  NewTag F tag_name st = (Returned tag, st1) ->
  PutBlob F tag blob_name (from_hex data) st1 = (Returned tt, st2) ->
  writes (snd (iteration F line st))
  = [ok_line (quoted "size" ++ ":"
              ++ to_string (N.of_nat (Nat.div2 (length data))))].
Proof.
  intros tag_name blob_name data Hskip Hcmd Htag Hblob Hnew Hput.
  rewrite (put_stores_decoded F line st st1 st2 tag
             Hskip Hcmd Htag Hblob Hnew Hput).
  cbn [snd writes flat_map app]. unfold size_of.
  now rewrite from_hex_length.
Qed.

Lemma buffer_exact (written : list ascii) :
  buffer (N.of_nat (List.length written)) written = written.
Proof.
  unfold buffer. rewrite Nat2N.id, firstn_app, Nat.sub_diag, firstn_all.
  cbn [firstn]. apply app_nil_r.
Qed.

(** X20. What was put is what is got. When the engine holds, for the blob
    asked, the bytes decoded from the hex text [h] (of even length, not
    empty), and the buffer for them can be allocated, a [get] is answered
    with their number and with [h] itself, in lower case. *)
Theorem get_returns_the_hex_put (line h : string)
  (st st1 st2 st3 st4 : backend F) (tag : Tag F) :
  let tag_name := json_get line "tag" in
  let blob_name := json_get line "blob" in
  let size := N.of_nat (List.length (from_hex h)) in
  skipped line = false ->
  json_get line "cmd" = "get" ->
  tag_name <> "" -> blob_name <> "" ->
  Nat.even (length h) = true -> all_chars hex_digit h = true -> h <> "" ->
  NewTag F tag_name st = (Returned tag, st1) ->
  GetBlobSize F tag blob_name st1 = (Returned size, st2) ->
  NewBuffer F size st2 = (Returned tt, st3) ->
  GetBlob F tag blob_name size st3 = (Returned (from_hex h), st4) ->
  writes (snd (iteration F line st))
  = [ok_line (quoted "size" ++ ":" ++ to_string size ++ ","
              ++ quoted "data" ++ ":" ++ quoted (map_chars to_lower h))].
Proof.
  intros tag_name blob_name size Hskip Hcmd Htag Hblob Heven Hhex Hne
    Hnew Hsize Hbuf Hget.
  subst size.
  assert (Hpos : (N.of_nat (List.length (from_hex h)) =? 0)%N = false).
  { apply N.eqb_neq.
    destruct h as [|c0 [|c1 h]]; [contradiction | discriminate Heven|].
    cbn [from_hex List.length]. lia. }
  unfold iteration, handle. rewrite Hskip, Hcmd.
  cbn [String.eqb Ascii.eqb Bool.eqb]. fold tag_name blob_name.
  destruct tag_name; [contradiction|]. destruct blob_name; [contradiction|].
  cbn [empty orb]. unfold bind, invoke. rewrite Hnew, Hsize.
  rewrite Hpos. unfold bind, invoke. rewrite Hbuf, Hget.
  rewrite buffer_exact, (to_hex_of_decoded h Heven Hhex).
  reflexivity.
Qed.

(** X24. A [get] whose buffer cannot be allocated never reaches [GetBlob]:
    when the engine reports a size that is not zero and the allocation of
    that many bytes throws, the request is answered by the error response of
    the exception, right behind the failed allocation, and the loop goes
    on. *)
Theorem get_without_buffer (line : string) (st st1 st2 st3 : backend F)
  (tag : Tag F) (size : N) (e : exn) :
  let tag_name := json_get line "tag" in
  let blob_name := json_get line "blob" in
  skipped line = false ->
  json_get line "cmd" = "get" ->
  tag_name <> "" -> blob_name <> "" ->
  NewTag F tag_name st = (Returned tag, st1) ->
  GetBlobSize F tag blob_name st1 = (Returned size, st2) ->
  size <> 0%N ->
  NewBuffer F size st2 = (Thrown e, st3) ->
  iteration F line st
  = (Next, st3,
     [EvCall (CallTag tag_name); EvCall (CallGetBlobSize tag_name blob_name);
      EvCall (CallNewBuffer size); EvThrow e;
      EvWrite (error_line (caught_message e))]).
Proof.
  intros tag_name blob_name Hskip Hcmd Htag Hblob Hnew Hsize Hpos Hbuf.
  apply N.eqb_neq in Hpos.
  unfold iteration, handle. rewrite Hskip, Hcmd.
  cbn [String.eqb Ascii.eqb Bool.eqb]. fold tag_name blob_name.
  destruct tag_name; [contradiction|]. destruct blob_name; [contradiction|].
  cbn [empty orb]. unfold bind, invoke. rewrite Hnew, Hsize.
  rewrite Hpos. unfold bind, invoke. rewrite Hbuf. reflexivity.
Qed.

(** X21. The engine is called for the seven storage commands only: a blank
    line, a comment, [ping], [quit], [exit] and any unknown command are dealt
    with by the helper alone, and leave the state of the engine as it was. *)
Theorem engine_called_for_storage_only (line : string) (st : backend F) :
  skipped line = true \/ engine_command (json_get line "cmd") = false ->
  calls (snd (iteration F line st)) = []
  /\ snd (fst (iteration F line st)) = st.
Proof.
  unfold iteration. intros [Hskip | Hcmd].
  - rewrite Hskip. now split.
  - destruct (skipped line); [now split|].
    unfold handle, engine_command in *. cbn [existsb] in Hcmd.
    repeat (apply orb_false_elim in Hcmd; destruct Hcmd as [-> Hcmd]).
    unfold bind, respond_ok, respond_error, respond, ret.
    destruct (json_get line "cmd" =? "ping"); [now split|].
    destruct ((json_get line "cmd" =? "quit")
              || (json_get line "cmd" =? "exit")); now split.
Qed.

(** *** Start and end of the process *)

(** X22. The exit code tells how the initialisation of the engine ended and
    nothing else: it is 0 exactly when the initialisation returned true, for
    any input and any later failure; it is 1 exactly when it returned false
    or threw a [std::exception]; and unless it is 0 no line of the input is
    read. *)
Theorem exit_code_follows_initialisation (stdin : list string)
  (st : backend F) :
  let init := fst (WRP_CTE_CLIENT_INIT F st) in
  let code := fst (fst (main F stdin st)) in
  (code = Exit 0 <-> init = Returned true)
  /\ (code = Exit 1
      <-> init = Returned false \/ exists what, init = Thrown (StdException what))
  /\ (code = Exit 0 \/ reads (snd (main F stdin st)) = []).
Proof.
  pose proof (main_by_initialisation F stdin st) as H. cbv zeta.
  destruct (WRP_CTE_CLIENT_INIT F st) as [[[|]|[what|]] st']; cbn [fst];
    rewrite H; cbn [fst snd].
  - repeat split; auto; try discriminate.
    intros [E | [what E]]; discriminate E.
  - repeat split; auto; try discriminate.
  - repeat split; eauto; try discriminate.
  - repeat split; auto; try discriminate.
    intros [E | [what E]]; discriminate E.
Qed.

(** X23. After a successful initialisation the first line written is the
    readiness record, before any line of the input is read and whether or
    not the targets could be listed; behind it come the requests read and
    their responses, one for one, up to the first [quit] or [exit]. *)
Theorem ready_comes_first (stdin : list string) (st : backend F) :
  fst (WRP_CTE_CLIENT_INIT F st) = Returned true ->
  exists info tr,
    io (snd (main F stdin st))
    = EvWrite ("{" ++ quoted "status" ++ ":" ++ quoted "ready" ++ ","
                   ++ info ++ "}") :: tr
    /\ framed (firstn (consumed stdin) stdin) tr.
Proof.
  intros Hinit. unfold main, invoke.
  destruct (WRP_CTE_CLIENT_INIT F st) as [init st']. cbn [fst] in Hinit.
  subst init.
  assert (Hinfo : io (snd (init_info F st')) = []).
  { unfold init_info, invoke.
    now destruct (ListTargets F st') as [[targets|[what|]] st1]. }
  destruct (init_info F st') as [[info st1] tr1]. cbn [snd] in Hinfo.
  pose proof (loop_framed F stdin st1) as Hloop.
  destruct (loop F stdin st1) as [st2 tr2]. cbn [snd] in *.
  exists info, (io tr2). split; [|exact Hloop].
  rewrite !io_app, Hinfo. reflexivity.
Qed.

End WithFacade.

(** *** The laws on the engine in memory *)

Lemma loop_app_witness :
  snd (loop memory ([put_request] ++ [get_request]) [])
  = (snd (loop memory [put_request] [])
       ++ snd (loop memory [get_request]
                 (fst (loop memory [put_request] []))))%list.
Proof.
  exact (f_equal snd (loop_app memory [put_request] [get_request] [] eq_refl)).
Defined.

Lemma tag_query_pattern_witness :
  calls (snd (iteration memory tag_query_request [])) = [CallTagQuery ".*"].
Proof.
  exact (proj1 (tag_query_pattern memory tag_query_request []
                  eq_refl eq_refl)).
Defined.

Lemma put_reports_half_length_witness :
  writes (snd (iteration memory put_odd []))
  = [ok_line (quoted "size" ++ ":2")].
Proof.
  exact (put_reports_half_length memory put_odd [] []
           [("t", "b", ["H"%char; "i"%char])] "t" eq_refl eq_refl
           ltac:(discriminate) ltac:(discriminate) eq_refl eq_refl).
Defined.

Lemma get_returns_the_hex_put_witness :
  writes (snd (iteration memory get_request
                 (fst (loop memory [put_request] []))))
  = [ok_line (quoted "size" ++ ":5," ++ quoted "data" ++ ":"
              ++ quoted "48656c6c6f")].
Proof.
  exact (get_returns_the_hex_put memory get_request "48656c6c6f"
           (fst (loop memory [put_request] []))
           (fst (loop memory [put_request] []))
           (fst (loop memory [put_request] []))
           (fst (loop memory [put_request] []))
           (fst (loop memory [put_request] []))
           "t1" eq_refl eq_refl ltac:(discriminate) ltac:(discriminate)
           eq_refl eq_refl ltac:(discriminate) eq_refl eq_refl eq_refl
           eq_refl).
Defined.

Lemma get_without_buffer_witness :
  iteration (cramped 4) get_request (fst (loop memory [put_request] []))
  = (Next, fst (loop memory [put_request] []),
     [EvCall (CallTag "t1"); EvCall (CallGetBlobSize "t1" "b1");
      EvCall (CallNewBuffer 5); EvThrow (StdException "std::bad_alloc");
      EvWrite (error_line "exception: std::bad_alloc")]).
Proof.
  exact (get_without_buffer (cramped 4) get_request
           (fst (loop memory [put_request] []))
           (fst (loop memory [put_request] []))
           (fst (loop memory [put_request] []))
           (fst (loop memory [put_request] []))
           "t1" 5%N (StdException "std::bad_alloc")
           eq_refl eq_refl ltac:(discriminate) ltac:(discriminate)
           eq_refl eq_refl ltac:(discriminate) eq_refl).
Defined.

Lemma engine_called_for_storage_only_witness :
  calls (snd (iteration memory ping_request [])) = [].
Proof.
  exact (proj1 (engine_called_for_storage_only memory ping_request []
                  (or_intror eq_refl))).
Defined.

Lemma ready_comes_first_witness :
  exists info tr,
    io (snd (main memory [put_request; get_request] []))
    = EvWrite ("{" ++ quoted "status" ++ ":" ++ quoted "ready" ++ ","
                   ++ info ++ "}") :: tr
    /\ framed (firstn 2 [put_request; get_request]) tr.
Proof.
  exact (ready_comes_first memory [put_request; get_request] [] eq_refl).
Defined.

End ProtocolLaws.
